(** * nat-test: the STUN binding probes of main.go

    A shallow embedding of [main], [testUDP] and [testTCP].  The program
    talks to the network, the clock, the STUN codec and the logger; here
    every such call is appended to a chronological list of calls, and the
    outside world answers each call as a function of the calls made so far.
    Go's control flow ([continue], [return], [defer]) and the records
    shared through pointers are written out. *)

From stdpp Require Import base list strings numbers.
From Stdlib.Strings Require Import Ascii Byte.

Open Scope Z_scope.

(** ** Values *)

Definition error := string.
Definition bytes := list byte.
(** [time.Time] as an instant in nanoseconds, [time.Duration] as Go's int64
    count of nanoseconds. *)
Definition Time := Z.
Definition Duration := Z.
(** A connection handle ([net.PacketConn], [net.Conn]). *)
Definition Conn := nat.

Inductive result (A : Type) : Type :=
| Ok (a : A)
| Err (e : error).
Arguments Ok {A} a.
Arguments Err {A} e.

Inductive IP := IPv4 (a : N) | IPv6 (a : N).

(** [net.UDPAddr], [net.TCPAddr] and [stun.XORMappedAddress]: an IP and a
    port. *)
Record Addr := { addr_IP : IP; addr_Port : N }.

Definition isIPv4 (a : Addr) : bool :=
  match addr_IP a with IPv4 _ => true | IPv6 _ => false end.

(** [stun.MessageClass] is a two-bit value. *)
Inductive MessageClass :=
| ClassRequest | ClassIndication | ClassSuccessResponse | ClassErrorResponse.

(** The fields of [stun.Message] that main.go reads: [Type.Class] and
    [TransactionID]; the attributes stay opaque bytes for the codec. *)
Record Message := {
  Class : MessageClass;
  TransactionID : bytes;
  Attributes : bytes;
}.

Record Logger := {
  logger_name : string;
  logger_fields : list (string * string);
}.

Definition NewLogger (name : string) : Logger :=
  {| logger_name := name; logger_fields := [] |}.
Definition Sublogger (lg : Logger) (name : string) : Logger :=
  {| logger_name := logger_name lg +:+ "." +:+ name;
     logger_fields := logger_fields lg |}.
Definition WithFields (lg : Logger) (k v : string) : Logger :=
  {| logger_name := logger_name lg;
     logger_fields := logger_fields lg ++ [(k, v)] |}.

(** [net.Dialer] with the two fields [testTCP] sets. *)
Record Dialer := { Timeout : Duration; LocalAddr : Addr }.

(** Modelled from the spec: the declaration of [STUNResponse] and of
    [NewSTUNResponse] is not in main.go.  main.go assigns the three fields
    [STUNServerAddr], [BindResponseAddr] and [TimeToBindResponse]; the spec
    calls them present only once their step has succeeded, so a field that
    was never assigned is [None].  The field holding the queried URL is
    named here. *)
Record STUNResponse := {
  STUNServerURL : string;
  STUNServerAddr : option string;
  BindResponseAddr : option string;
  TimeToBindResponse : option Duration;
}.

Definition mkSTUNResponse (url : string) : STUNResponse :=
  {| STUNServerURL := url; STUNServerAddr := None;
     BindResponseAddr := None; TimeToBindResponse := None |}.

Definition with_STUNServerAddr (v : string) (r : STUNResponse) :=
  {| STUNServerURL := STUNServerURL r; STUNServerAddr := Some v;
     BindResponseAddr := BindResponseAddr r;
     TimeToBindResponse := TimeToBindResponse r |}.
Definition with_BindResponseAddr (v : string) (r : STUNResponse) :=
  {| STUNServerURL := STUNServerURL r; STUNServerAddr := STUNServerAddr r;
     BindResponseAddr := Some v;
     TimeToBindResponse := TimeToBindResponse r |}.
Definition with_TimeToBindResponse (v : Duration) (r : STUNResponse) :=
  {| STUNServerURL := STUNServerURL r; STUNServerAddr := STUNServerAddr r;
     BindResponseAddr := BindResponseAddr r;
     TimeToBindResponse := Some v |}.

(** ** Calls on the outside world *)

Inductive Level := Warn | Error.

Inductive LogArg :=
| AStr (s : string) | AInt (n : Z) | AErr (e : error) | AClass (c : MessageClass).

Inductive Call :=
| CListenPacket (network address : string)
| CNow
| CSetDeadline (c : Conn) (t : Time)
| CSetReadDeadline (c : Conn) (t : Time)
| CBuild
| CMarshalBinary (m : Message)
| CResolveUDPAddr (network address : string)
| CResolveTCPAddr (network address : string)
| CWriteTo (c : Conn) (b : bytes) (a : Addr)
| CWrite (c : Conn) (b : bytes)
| CReadFrom (c : Conn) (buflen : nat)
| CRead (c : Conn) (buflen : nat)
| CDecode (b : bytes)
| CGetFrom (m : Message)
| CDial (d : Dialer) (network address : string)
| CClose (c : Conn)
| CUncheckedError (e : option error)
| CLog (lg : Logger) (lvl : Level) (msg : string) (args : list LogArg)
| CLogSTUNResults (lg : Logger) (rs : list STUNResponse).

(** The outside world.  An answer may depend on every call made so far,
    the one being answered included (it is the last of the list).  The codec
    and the printing of addresses are pure functions.  A read answers with
    the bytes it puts into the caller's buffer, the count it reports, (the
    source address,) and the error. *)
Record World := {
  net_ListenPacket : list Call → result Conn;
  time_Now : list Call → Time;
  conn_SetDeadline : list Call → option error;
  conn_SetReadDeadline : list Call → option error;
  stun_Build : list Call → result Message;
  msg_MarshalBinary : Message → result bytes;
  net_lookup : list Call → result (list Addr);
  conn_WriteTo : list Call → Z * option error;
  conn_Write : list Call → Z * option error;
  conn_ReadFrom : list Call → bytes * Z * Addr * option error;
  conn_Read : list Call → bytes * Z * option error;
  stun_Decode : bytes → result Message;
  xor_GetFrom : Message → result Addr;
  dialer_Dial : list Call → result Conn;
  conn_Close : list Call → option error;
  Addr_String : Addr → string;
}.

(** ** Program state and control flow *)

Record State := {
  calls : list Call;          (* every call made so far, oldest first *)
  heap : list STUNResponse;   (* the records behind [*STUNResponse] *)
  stunResponses : list nat;   (* the local slice of pointers *)
  deferred : list Conn;       (* connections a pending [defer] will close *)
}.

Definition set_calls (v : list Call) (s : State) : State :=
  {| calls := v; heap := heap s; stunResponses := stunResponses s;
     deferred := deferred s |}.
Definition set_heap (v : list STUNResponse) (s : State) : State :=
  {| calls := calls s; heap := v; stunResponses := stunResponses s;
     deferred := deferred s |}.
Definition set_stunResponses (v : list nat) (s : State) : State :=
  {| calls := calls s; heap := heap s; stunResponses := v;
     deferred := deferred s |}.
Definition set_deferred (v : list Conn) (s : State) : State :=
  {| calls := calls s; heap := heap s; stunResponses := stunResponses s;
     deferred := v |}.

(** How a statement ends: it falls through with a value, it is a
    [continue], or it is a [return] of the function's error. *)
Inductive ctl (A : Type) : Type :=
| Normal (a : A)
| Continue
| Return (e : option error).
Arguments Normal {A} a.
Arguments Continue {A}.
Arguments Return {A} e.

Definition M (A : Type) : Type := State → ctl A * State.

#[export] Instance M_ret : MRet M := λ A a s, (Normal a, s).
#[export] Instance M_bind : MBind M := λ A B f m s,
  match m s with
  | (Normal a, s') => f a s'
  | (Continue, s') => (Continue, s')
  | (Return e, s') => (Return e, s')
  end.

Definition continue {A} : M A := λ s, (Continue, s).
Definition return_ {A} (e : option error) : M A := λ s, (Return e, s).

(** [for _, x := range l { body }]: a [continue] ends one iteration, a
    [return] ends the loop. *)
Fixpoint range {A} (l : list A) (body : A → M unit) : M unit :=
  match l with
  | [] => mret tt
  | x :: l' => λ s,
      match body x s with
      | (Normal _, s') | (Continue, s') => range l' body s'
      | (Return e, s') => (Return e, s')
      end
  end.

(** A call whose answer the world gives. *)
Definition ask {A} (c : Call) (answer : list Call → A) : M A :=
  λ s, let h := calls s ++ [c] in (Normal (answer h), set_calls h s).
(** A call into the pure codec. *)
Definition invoke {A} (c : Call) (a : A) : M A :=
  λ s, (Normal a, set_calls (calls s ++ [c]) s).

Definition defer_Close (c : Conn) : M unit :=
  λ s, (Normal tt, set_deferred (c :: deferred s) s).

Definition NewSTUNResponse (url : string) : M nat :=
  λ s, (Normal (length (heap s)), set_heap (heap s ++ [mkSTUNResponse url]) s).
Definition assign (p : nat) (f : STUNResponse → STUNResponse) : M unit :=
  λ s, (Normal tt, set_heap (alter f p (heap s)) s).
Definition append_stunResponses (p : nat) : M unit :=
  λ s, (Normal tt, set_stunResponses (stunResponses s ++ [p]) s).

(** The records a slice of pointers stands for. *)
Definition deref (h : list STUNResponse) (ps : list nat) : list STUNResponse :=
  omap (λ p, h !! p) ps.

(** ** Library calls *)

#[export] Instance byte_eq_decision : EqDecision byte := Byte.byte_eq_dec.

(** [encoding/hex.EncodeToString] *)
Definition hexdigit (n : N) : ascii :=
  match n with
  | 0 => "0" | 1 => "1" | 2 => "2" | 3 => "3" | 4 => "4" | 5 => "5"
  | 6 => "6" | 7 => "7" | 8 => "8" | 9 => "9" | 10 => "a" | 11 => "b"
  | 12 => "c" | 13 => "d" | 14 => "e" | _ => "f"
  end%N%char.
Fixpoint hex_EncodeToString (b : bytes) : string :=
  match b with
  | [] => EmptyString
  | x :: b' =>
      String (hexdigit (Byte.to_N x / 16))
        (String (hexdigit (Byte.to_N x mod 16)) (hex_EncodeToString b'))
  end.

(** [make([]byte, n)] and what [copy] leaves in a buffer that receives
    [data]: the data that fits, then the old tail. *)
Definition make_bytes (n : nat) : bytes := replicate n x00.
Definition copy_into (buf data : bytes) : bytes :=
  take (length buf) data ++ drop (length data) buf.

(** [time.Time.Add], and [time.Time.Sub], which saturates at the ends of
    int64. *)
Definition maxDuration : Duration := 2 ^ 63 - 1.
Definition minDuration : Duration := - 2 ^ 63.
Definition Second : Duration := 1000000000.
Definition Time_Add (t : Time) (d : Duration) : Time := t + d.
Definition Time_Sub (t u : Time) : Duration :=
  Z.max minDuration (Z.min maxDuration (t - u)).

(** Go's resolver, as package net documents it for [ResolveUDPAddr] and
    [ResolveTCPAddr]: the addresses the name stands for are looked up, a
    network ending in 4 or 6 keeps one family only, an empty list is an
    error, and of what is left the first IPv4 address is preferred (the
    first IPv6 one when the name is an IPv6 literal), else the first. *)
Fixpoint has_char (c : ascii) (s : string) : bool :=
  match s with
  | EmptyString => false
  | String c' s' => if decide (c = c') then true else has_char c s'
  end.

Definition filterAddrList (network : string) (addrs : list Addr) : result (list Addr) :=
  let kept :=
    if decide (network = "udp4" ∨ network = "tcp4") then filter (λ a, isIPv4 a = true) addrs
    else if decide (network = "udp6" ∨ network = "tcp6") then filter (λ a, isIPv4 a = false) addrs
    else addrs in
  match kept with
  | [] => Err "no suitable address found"
  | _ => Ok kept
  end.

Definition forResolve (network address : string) (addrs : list Addr) : option Addr :=
  let want6 :=
    bool_decide (network = "tcp" ∨ network = "udp") && has_char "["%char address in
  let strategy (a : Addr) := if want6 then negb (isIPv4 a) else isIPv4 a in
  match list_find (λ a, strategy a = true) addrs with
  | Some (_, a) => Some a
  | None => head addrs
  end.

Definition resolve (known : list string) (network address : string)
    (looked : result (list Addr)) : result Addr :=
  let network := if decide (network = "") then hd "" known else network in
  if decide (network ∈ known) then
    match looked with
    | Err e => Err e
    | Ok ips =>
        match filterAddrList network ips with
        | Err e => Err e
        | Ok addrs =>
            match forResolve network address addrs with
            | Some a => Ok a
            | None => Err "no suitable address found"
            end
        end
    end
  else Err ("unknown network " +:+ network).

Record Config := {
  stunServerURLsToTestUDP : list string;
  stunServerURLsToTestTCP : list string;
}.

(** The two lists of main.go. *)
Definition package_vars : Config := {|
  stunServerURLsToTestUDP :=
    ["stun.l.google.com:3478"; "stun.l.google.com:19302";
     "stun.sipgate.net:3478"; "stun.sipgate.net:3479";
     "global.stun.twilio.com:3478"; "turn.viam.com:443"];
  stunServerURLsToTestTCP := ["turn.viam.com:443"];
|}.

Section Program.

Context (w : World) (cfg : Config).

Definition ListenPacket (network address : string) : M (result Conn) :=
  ask (CListenPacket network address) (net_ListenPacket w).
Definition Now : M Time := ask CNow (time_Now w).
Definition Since (t : Time) : M Duration :=
  now ← Now; mret (Time_Sub now t).
Definition SetDeadline (c : Conn) (t : Time) : M (option error) :=
  ask (CSetDeadline c t) (conn_SetDeadline w).
Definition SetReadDeadline (c : Conn) (t : Time) : M (option error) :=
  ask (CSetReadDeadline c t) (conn_SetReadDeadline w).
(** [stun.Build(stun.TransactionID, stun.BindingRequest)] *)
Definition Build : M (result Message) := ask CBuild (stun_Build w).
Definition MarshalBinary (m : Message) : M (result bytes) :=
  invoke (CMarshalBinary m) (msg_MarshalBinary w m).
Definition ResolveUDPAddr (network address : string) : M (result Addr) :=
  ask (CResolveUDPAddr network address)
      (λ h, resolve ["udp"; "udp4"; "udp6"] network address (net_lookup w h)).
Definition ResolveTCPAddr (network address : string) : M (result Addr) :=
  ask (CResolveTCPAddr network address)
      (λ h, resolve ["tcp"; "tcp4"; "tcp6"] network address (net_lookup w h)).
Definition WriteTo (c : Conn) (b : bytes) (a : Addr) : M (Z * option error) :=
  ask (CWriteTo c b a) (conn_WriteTo w).
Definition Write (c : Conn) (b : bytes) : M (Z * option error) :=
  ask (CWrite c b) (conn_Write w).
(** [ReadFrom] and [Read] fill the caller's buffer; the new contents of
    the buffer are returned with the count, (the source address,) and the
    error. *)
Definition ReadFrom (c : Conn) (buf : bytes) : M (bytes * Z * Addr * option error) :=
  ask (CReadFrom c (length buf))
      (λ h, let '(data, n, src, err) := conn_ReadFrom w h in
            (copy_into buf data, n, src, err)).
Definition Read (c : Conn) (buf : bytes) : M (bytes * Z * option error) :=
  ask (CRead c (length buf))
      (λ h, let '(data, n, err) := conn_Read w h in
            (copy_into buf data, n, err)).
Definition Decode (b : bytes) : M (result Message) :=
  invoke (CDecode b) (stun_Decode w b).
Definition GetFrom (m : Message) : M (result Addr) :=
  invoke (CGetFrom m) (xor_GetFrom w m).
Definition Dial (d : Dialer) (network address : string) : M (result Conn) :=
  ask (CDial d network address) (dialer_Dial w).
Definition log (lg : Logger) (lvl : Level) (msg : string) (args : list LogArg) : M unit :=
  invoke (CLog lg lvl msg args) tt.
(** [utils.UncheckedError(conn.Close())] *)
Definition Close_unchecked (c : Conn) : M unit :=
  e ← ask (CClose c) (conn_Close w); invoke (CUncheckedError e) tt.

(** Modelled from the spec: [logSTUNResults] is not in main.go.  It is
    handed the logger and the slice; the spec has it report every record of
    the slice, filtering none, so it is one call that carries the records
    the slice points to at that moment. *)
Definition logSTUNResults (lg : Logger) : M unit :=
  λ s, invoke (CLogSTUNResults lg (deref (heap s) (stunResponses s))) tt s.

(** A function call: the body runs on fresh locals, then the deferred
    closes run, last deferred first, and the error of the [return] is the
    result.  The callee's slice is left in the state for inspection. *)
Fixpoint run_deferred (cs : list Conn) : M unit :=
  match cs with
  | [] => mret tt
  | c :: cs' => Close_unchecked c;; run_deferred cs'
  end.

Definition func (body : M unit) (s : State) : option error * State :=
  let '(c, s1) := body (set_stunResponses [] (set_deferred [] s)) in
  let '(_, s2) := run_deferred (deferred s1) s1 in
  (match c with Return e => e | _ => None end, set_deferred [] s2).

(** Lines 104-131 of [testUDP], which are lines 213-240 of [testTCP]:
    decode the buffer, accept a success response only, extract the mapped
    address, compare the transaction IDs, and only then fill the record. *)
Definition check_response (logger : Logger) (bindRequest : Message)
    (stunResponse : nat) (bindStart : Time) (rawResponse : bytes) : M unit :=
  r ← Decode rawResponse;
  response ← match r with
             | Err err =>
                 log logger Error "Error decoding STUN message" [AStr "error"; AErr err];;
                 continue
             | Ok response => mret response
             end;
  match Class response with
  | ClassSuccessResponse =>
      r ← GetFrom response;
      bindResponseAddr ← match r with
             | Err err =>
                 log logger Error "Error extracting address from STUN message"
                     [AStr "error"; AErr err];;
                 continue
             | Ok a => mret a
             end;
      (if bool_decide (TransactionID bindRequest ≠ TransactionID response) then
         log logger Error "Transaction ID mismatch (expected %s, got %s)"
             [AStr (hex_EncodeToString (TransactionID bindRequest));
              AStr (hex_EncodeToString (TransactionID response))];;
         continue
       else mret tt);;
      assign stunResponse (with_BindResponseAddr (Addr_String w bindResponseAddr));;
      d ← Since bindStart;
      assign stunResponse (with_TimeToBindResponse d)
  | c =>
      log logger Error "Unexpected STUN response received"
          [AStr "response_type"; AClass c]
  end.

(** The body of the loop of [testUDP], lines 72-131. *)
Definition probeUDP (logger : Logger) (conn : Conn) (bindRequest : Message)
    (bindRequestRaw : bytes) (stunServerURLToTest : string) : M unit :=
  let logger := WithFields logger "stun_server_url" stunServerURLToTest in
  stunResponse ← NewSTUNResponse stunServerURLToTest;
  append_stunResponses stunResponse;;
  r ← ResolveUDPAddr "udp4" stunServerURLToTest;
  udpAddr ← match r with
            | Err err =>
                log logger Error "Error resolving URL to a UDP address"
                    [AStr "error"; AErr err];;
                continue
            | Ok a => mret a
            end;
  assign stunResponse (with_STUNServerAddr (Addr_String w udpAddr));;
  bindStart ← Now;
  '(n, err) ← WriteTo conn bindRequestRaw udpAddr;
  match err with
  | Some err => log logger Error "Error writing to conn" [AStr "error"; AErr err];; continue
  | None => mret tt
  end;;
  (if bool_decide (n ≠ Z.of_nat (length bindRequestRaw)) then
     log logger Error "Only wrote %d/%d of bind request"
         [AInt n; AInt (Z.of_nat (length bindRequestRaw))];;
     continue
   else mret tt);;
  '(rawResponse, n, _, err) ← ReadFrom conn (make_bytes 2000);
  match err with
  | Some err => log logger Error "Error reading from conn" [AStr "error"; AErr err];; continue
  | None => mret tt
  end;;
  check_response logger bindRequest stunResponse bindStart rawResponse.

Definition testUDP_body (logger : Logger) (timeout : Duration) : M unit :=
  r ← ListenPacket "udp" "0.0.0.0:0";
  conn ← match r with
         | Err err =>
             log logger Warn
                 "Failed to listen over UDP on a port; UDP traffic may be blocked" [];;
             return_ (Some err)
         | Ok conn => mret conn
         end;
  defer_Close conn;;
  (if bool_decide (timeout > 0) then
     now ← Now;
     e ← SetDeadline conn (Time_Add now timeout);
     match e with
     | Some err => return_ (Some err)
     | None => mret tt
     end
   else mret tt);;
  r ← Build;
  bindRequest ← match r with Err err => return_ (Some err) | Ok m => mret m end;
  r ← MarshalBinary bindRequest;
  bindRequestRaw ← match r with Err err => return_ (Some err) | Ok b => mret b end;
  range (stunServerURLsToTestUDP cfg) (probeUDP logger conn bindRequest bindRequestRaw);;
  logSTUNResults logger;;
  return_ None.

Definition testUDP (logger : Logger) (timeout : Duration) : State → option error * State :=
  func (testUDP_body logger timeout).

(** The body of the loop of [testTCP], lines 163-240. *)
Definition probeTCP (logger : Logger) (timeout : Duration) (dialer : Dialer)
    (bindRequest : Message) (bindRequestRaw : bytes)
    (stunServerURLToTest : string) : M unit :=
  let logger := WithFields logger "stun_server_url" stunServerURLToTest in
  r ← Dial dialer "tcp" stunServerURLToTest;
  conn ← match r with
         | Err _ => log logger Error "Error dialing STUN server via tcp" [];; continue
         | Ok conn => mret conn
         end;
  defer_Close conn;;
  (if bool_decide (timeout > 0) then
     now ← Now;
     e ← SetReadDeadline conn (Time_Add now timeout);
     match e with
     | Some _ =>
         log logger Error "Error setting read deadline on TCP connection" [];;
         continue
     | None => mret tt
     end
   else mret tt);;
  stunResponse ← NewSTUNResponse stunServerURLToTest;
  append_stunResponses stunResponse;;
  r ← ResolveTCPAddr "tcp" stunServerURLToTest;
  tcpAddr ← match r with
            | Err err =>
                log logger Error "Error resolving URL to a TCP address"
                    [AStr "error"; AErr err];;
                continue
            | Ok a => mret a
            end;
  assign stunResponse (with_STUNServerAddr (Addr_String w tcpAddr));;
  bindStart ← Now;
  '(n, err) ← Write conn bindRequestRaw;
  match err with
  | Some err => log logger Error "Error writing to conn" [AStr "error"; AErr err];; continue
  | None => mret tt
  end;;
  (if bool_decide (n ≠ Z.of_nat (length bindRequestRaw)) then
     log logger Error "Only wrote %d/%d of bind request"
         [AInt n; AInt (Z.of_nat (length bindRequestRaw))];;
     continue
   else mret tt);;
  '(rawResponse, n, err) ← Read conn (make_bytes 2000);
  match err with
  | Some err => log logger Error "Error reading from conn" [AStr "error"; AErr err];; continue
  | None => mret tt
  end;;
  check_response logger bindRequest stunResponse bindStart rawResponse.

Definition testTCP_body (logger : Logger) (timeout : Duration) : M unit :=
  let dialer := {| Timeout := timeout;
                   LocalAddr := {| addr_IP := IPv4 0; addr_Port := 0 |} |} in
  r ← Build;
  bindRequest ← match r with Err err => return_ (Some err) | Ok m => mret m end;
  r ← MarshalBinary bindRequest;
  bindRequestRaw ← match r with Err err => return_ (Some err) | Ok b => mret b end;
  range (stunServerURLsToTestTCP cfg)
        (probeTCP logger timeout dialer bindRequest bindRequestRaw);;
  logSTUNResults logger;;
  return_ None.

Definition testTCP (logger : Logger) (timeout : Duration) : State → option error * State :=
  func (testTCP_body logger timeout).

(** [main]: an error of either run is a panic, which ends the process; the
    result is the value of the panic, if any. *)
Definition main (s : State) : option error * State :=
  let logger := NewLogger "nat-testing" in
  let timeout := 10 * Second in
  match testUDP (Sublogger logger "udp") timeout s with
  | (Some err, s1) => (Some err, s1)
  | (None, s1) =>
      match testTCP (Sublogger logger "tcp") timeout s1 with
      | (Some err, s2) => (Some err, s2)
      | (None, s2) => (None, s2)
      end
  end.

End Program.

(** The state a process starts in, and what a run leaves to report. *)
Definition init : State :=
  {| calls := []; heap := []; stunResponses := []; deferred := [] |}.
Definition batch (s : State) : list STUNResponse := deref (heap s) (stunResponses s).

(** ** What one iteration adds to the state *)

(** An iteration of either loop appends calls, allocates records at the
    end of the heap and appends their pointers to the slice, and pushes
    deferred closes. *)
Record Iter := {
  it_calls : list Call;
  it_recs : list STUNResponse;
  it_defers : list Conn;
}.

Definition frame (s : State) (it : Iter) : State :=
  {| calls := calls s ++ it_calls it;
     heap := heap s ++ it_recs it;
     stunResponses :=
       stunResponses s ++ seq (length (heap s)) (length (it_recs it));
     deferred := it_defers it ++ deferred s |}.

Definition iters_join (its : list Iter) : Iter :=
  {| it_calls := concat (it_calls <$> its);
     it_recs := concat (it_recs <$> its);
     it_defers := concat (reverse (it_defers <$> its)) |}.

(** The iterations of a loop that starts after the calls [h], each
    satisfying [P] at the calls made before it. *)
Inductive iterations {A} (P : list Call → A → Iter → Prop) :
    list Call → list A → list Iter → Prop :=
| iterations_nil h : iterations P h [] []
| iterations_cons h x l it its :
    P h x it →
    iterations P (h ++ it_calls it) l its →
    iterations P h (x :: l) (it :: its).

(** ** Runs, seen from the calls *)

Inductive Transport := UDP | TCP.

Definition dialer_of (timeout : Duration) : Dialer :=
  {| Timeout := timeout; LocalAddr := {| addr_IP := IPv4 0; addr_Port := 0 |} |}.

Definition test (w : World) (cfg : Config) (tr : Transport) :
    Logger → Duration → State → option error * State :=
  match tr with UDP => testUDP w cfg | TCP => testTCP w cfg end.

Definition urls (cfg : Config) (tr : Transport) : list string :=
  match tr with
  | UDP => stunServerURLsToTestUDP cfg
  | TCP => stunServerURLsToTestTCP cfg
  end.

(** The body of the loop of a transport; [conn] is the socket of the UDP
    run. *)
Definition body (w : World) (tr : Transport) (lg : Logger) (timeout : Duration)
    (conn : Conn) (req : Message) (raw : bytes) : string → M unit :=
  match tr with
  | UDP => probeUDP w lg conn req raw
  | TCP => probeTCP w lg timeout (dialer_of timeout) req raw
  end.

(** [it] is what the loop body does for [url] when the calls made before
    it are [h]. *)
Definition probe (w : World) (tr : Transport) (lg : Logger) (timeout : Duration)
    (conn : Conn) (req : Message) (raw : bytes)
    (h : list Call) (url : string) (it : Iter) : Prop :=
  ∃ s c, calls s = h ∧ body w tr lg timeout conn req raw url s = (c, frame s it).

(** The calls of lines 50-55, after the calls [h]. *)
Definition deadline_calls (w : World) (timeout : Duration) (conn : Conn)
    (h : list Call) : list Call :=
  if bool_decide (timeout > 0)
  then [CNow; CSetDeadline conn (Time_Add (time_Now w (h ++ [CNow])) timeout)]
  else [].

(** The calls of the deferred closes of [cs], first to last. *)
Fixpoint closing (w : World) (h : list Call) (cs : list Conn) : list Call :=
  match cs with
  | [] => []
  | c :: cs' =>
      let e := conn_Close w (h ++ [CClose c]) in
      CClose c :: CUncheckedError e
        :: closing w (h ++ [CClose c; CUncheckedError e]) cs'
  end.

(** What a run has opened before it builds its request, and the
    connections it then owns: the socket of the UDP run, with its deadline
    armed when there is a timeout; nothing for TCP. *)
Definition open_calls (w : World) (tr : Transport) (timeout : Duration)
    (h : list Call) (conn : Conn) : list Call :=
  match tr with
  | UDP =>
      CListenPacket "udp" "0.0.0.0:0"
        :: deadline_calls w timeout conn (h ++ [CListenPacket "udp" "0.0.0.0:0"])
  | TCP => []
  end.

Definition opened (w : World) (tr : Transport) (timeout : Duration)
    (h : list Call) (conn : Conn) : Prop :=
  match tr with
  | UDP =>
      net_ListenPacket w (h ++ [CListenPacket "udp" "0.0.0.0:0"]) = Ok conn ∧
      (timeout > 0 →
       conn_SetDeadline w (h ++ open_calls w UDP timeout h conn) = None)
  | TCP => True
  end.

Definition owned (tr : Transport) (conn : Conn) : list Conn :=
  match tr with UDP => [conn] | TCP => [] end.

(** The calls a run makes before its loop. *)
Definition setup_calls (w : World) (tr : Transport) (timeout : Duration)
    (h : list Call) (conn : Conn) (req : Message) : list Call :=
  open_calls w tr timeout h conn ++ [CBuild; CMarshalBinary req].

(** The setup of a run succeeds with the socket [conn] (UDP), the request
    [req] and its bytes [raw]. *)
Definition ready (w : World) (tr : Transport) (timeout : Duration)
    (h : list Call) (conn : Conn) (req : Message) (raw : bytes) : Prop :=
  opened w tr timeout h conn ∧
  stun_Build w (h ++ open_calls w tr timeout h conn ++ [CBuild]) = Ok req ∧
  msg_MarshalBinary w req = Ok raw.

(** The setup of a run fails with [err], after the calls [pre] and owning
    the connections [cs]. *)
Inductive fatal (w : World) (lg : Logger) (timeout : Duration) (h : list Call) :
    Transport → error → list Call → list Conn → Prop :=
| fatal_listen err :
    net_ListenPacket w (h ++ [CListenPacket "udp" "0.0.0.0:0"]) = Err err →
    fatal w lg timeout h UDP err
      [CListenPacket "udp" "0.0.0.0:0";
       CLog lg Warn "Failed to listen over UDP on a port; UDP traffic may be blocked" []]
      []
| fatal_deadline conn err :
    net_ListenPacket w (h ++ [CListenPacket "udp" "0.0.0.0:0"]) = Ok conn →
    timeout > 0 →
    conn_SetDeadline w (h ++ open_calls w UDP timeout h conn) = Some err →
    fatal w lg timeout h UDP err (open_calls w UDP timeout h conn) [conn]
| fatal_build tr conn err :
    opened w tr timeout h conn →
    stun_Build w (h ++ open_calls w tr timeout h conn ++ [CBuild]) = Err err →
    fatal w lg timeout h tr err
      (open_calls w tr timeout h conn ++ [CBuild]) (owned tr conn)
| fatal_marshal tr conn req err :
    opened w tr timeout h conn →
    stun_Build w (h ++ open_calls w tr timeout h conn ++ [CBuild]) = Ok req →
    msg_MarshalBinary w req = Err err →
    fatal w lg timeout h tr err
      (setup_calls w tr timeout h conn req) (owned tr conn).

(** The state a run that failed in its setup ends in, and the state a
    run that got through its loop ends in. *)
Definition failed_state (w : World) (s : State) (pre : list Call)
    (cs : list Conn) : State :=
  {| calls := calls s ++ pre ++ closing w (calls s ++ pre) cs;
     heap := heap s; stunResponses := []; deferred := [] |}.

Definition completed_state (w : World) (lg : Logger) (s : State)
    (pre : list Call) (it : Iter) (cs : list Conn) : State :=
  let h := calls s ++ pre ++ it_calls it ++ [CLogSTUNResults lg (it_recs it)] in
  {| calls := h ++ closing w h (it_defers it ++ cs);
     heap := heap s ++ it_recs it;
     stunResponses := seq (length (heap s)) (length (it_recs it));
     deferred := [] |}.

(** ** Reading the calls of a run *)

Definition new_calls (s s' : State) : list Call :=
  drop (length (calls s)) (calls s').

Definition is_deadline (c : Call) : bool :=
  match c with CSetDeadline _ _ | CSetReadDeadline _ _ => true | _ => false end.
Definition is_error_log (c : Call) : bool :=
  match c with CLog _ Error _ _ => true | _ => false end.
Definition is_request_build (c : Call) : bool :=
  match c with CBuild | CMarshalBinary _ => true | _ => false end.
Definition is_close (c : Call) : bool :=
  match c with CClose _ => true | _ => false end.
(** The payload of a send. *)
Definition sent (c : Call) : option bytes :=
  match c with CWriteTo _ b _ | CWrite _ b => Some b | _ => None end.
(** The first call of an iteration, which names its server. *)
Definition attempt (tr : Transport) (timeout : Duration) (url : string) : Call :=
  match tr with
  | UDP => CResolveUDPAddr "udp4" url
  | TCP => CDial (dialer_of timeout) "tcp" url
  end.
Definition is_attempt (c : Call) : bool :=
  match c with CResolveUDPAddr _ _ | CDial _ _ _ => true | _ => false end.

(** The records of an iteration are records of its server: one in a UDP
    iteration, at most one in a TCP iteration. *)
Definition records_of (tr : Transport) (url : string) (it : Iter) : Prop :=
  Forall (λ r, STUNServerURL r = url) (it_recs it) ∧
  match tr with
  | UDP => length (it_recs it) = 1%nat
  | TCP => (length (it_recs it) ≤ 1)%nat
  end.




(** An iteration succeeded: its record has a mapped address. *)
Definition succeeded (it : Iter) : Prop :=
  ∃ r, r ∈ it_recs it ∧ is_Some (BindResponseAddr r).

(** The error messages of the steps of an iteration. *)
Definition failure_messages : list string :=
  ["Error dialing STUN server via tcp";
   "Error setting read deadline on TCP connection";
   "Error resolving URL to a UDP address";
   "Error resolving URL to a TCP address";
   "Error writing to conn";
   "Only wrote %d/%d of bind request";
   "Error reading from conn";
   "Error decoding STUN message";
   "Unexpected STUN response received";
   "Error extracting address from STUN message";
   "Transaction ID mismatch (expected %s, got %s)"].

(** An iteration starts with the attempt at its own server and attempts no
    other; it logs no error when it succeeds and exactly one error, the
    message of the step that failed, under the name of its server, when it
    does not. *)
Definition isolated (tr : Transport) (lg : Logger) (timeout : Duration)
    (url : string) (it : Iter) : Prop :=
  (∃ rest, it_calls it = attempt tr timeout url :: rest ∧
           List.filter is_attempt rest = []) ∧
  (succeeded it → List.filter is_error_log (it_calls it) = []) ∧
  (¬ succeeded it →
   ∃ msg args, List.filter is_error_log (it_calls it)
               = [CLog (WithFields lg "stun_server_url" url) Error msg args] ∧
               msg ∈ failure_messages).

(** A call that is neither the building nor the serializing of a request,
    and that sends nothing but [raw]. *)
Definition reuses (raw : bytes) (c : Call) : Prop :=
  is_request_build c = false ∧ ∀ b, sent c = Some b → b = raw.

(** The calls of lines 176-181, after the calls [h]. *)
Definition read_deadline_calls (w : World) (timeout : Duration) (conn : Conn)
    (h : list Call) : list Call :=
  if bool_decide (timeout > 0)
  then [CNow; CSetReadDeadline conn (Time_Add (time_Now w (h ++ [CNow])) timeout)]
  else [].

(** The deadline calls of an iteration: none in a UDP iteration; in a TCP
    iteration, none when the dial fails, and when it succeeds the calls
    of lines 176-181 right after the dial, and no other. *)
Definition deadline_armed (w : World) (tr : Transport) (timeout : Duration)
    (h : list Call) (url : string) (it : Iter) : Prop :=
  match tr with
  | UDP => List.filter is_deadline (it_calls it) = []
  | TCP =>
      let dial := CDial (dialer_of timeout) "tcp" url in
      match dialer_Dial w (h ++ [dial]) with
      | Ok conn =>
          ∃ rest,
            it_calls it
            = dial :: read_deadline_calls w timeout conn (h ++ [dial]) ++ rest ∧
            List.filter is_deadline rest = []
      | Err _ => List.filter is_deadline (it_calls it) = []
      end
  end.

(** What the resolver answers in the iteration for [url] that starts after
    the calls [h]: the UDP loop resolves first, on network "udp4"; the TCP
    loop resolves on network "tcp", after the dial and the deadline calls
    of a connection [conn]. *)
Definition resolved (w : World) (tr : Transport) (timeout : Duration)
    (conn : Conn) (h : list Call) (url : string) : result Addr :=
  match tr with
  | UDP =>
      resolve ["udp"; "udp4"; "udp6"] "udp4" url
        (net_lookup w (h ++ [CResolveUDPAddr "udp4" url]))
  | TCP =>
      let dial := CDial (dialer_of timeout) "tcp" url in
      resolve ["tcp"; "tcp4"; "tcp6"] "tcp" url
        (net_lookup w
           (h ++ dial :: read_deadline_calls w timeout conn (h ++ [dial])
              ++ [CResolveTCPAddr "tcp" url]))
  end.

(** The record of an iteration has its resolved address exactly when the
    resolver answered with an address, and it is that address, printed. *)
Definition resolved_by (w : World) (tr : Transport) (timeout : Duration)
    (h : list Call) (url : string) (it : Iter) : Prop :=
  ∀ r, r ∈ it_recs it →
    ∀ conn,
      match tr with
      | UDP => True
      | TCP => dialer_Dial w (h ++ [CDial (dialer_of timeout) "tcp" url]) = Ok conn
      end →
      ∀ str, STUNServerAddr r = Some str ↔
             ∃ a, resolved w tr timeout conn h url = Ok a ∧ str = Addr_String w a.

(** A 2000-byte buffer of zeros after [data] was received into it. *)
Definition filled (data : bytes) : bytes :=
  take 2000 data ++ replicate (2000 - length data) x00.

(** The bytes the world puts into the buffer at the read that ends the
    calls [hh], and the size of the buffer a read call passes. *)
Definition received (w : World) (tr : Transport) (hh : list Call) : bytes :=
  match tr with
  | UDP => (conn_ReadFrom w hh).1.1.1
  | TCP => (conn_Read w hh).1.1
  end.
Definition read_size (c : Call) : option nat :=
  match c with CReadFrom _ n | CRead _ n => Some n | _ => None end.

(** Every decode of an iteration is of a 2000-byte buffer, follows a read
    into a 2000-byte buffer, and is of the zero buffer with the bytes of
    that read copied into it. *)
Definition decodes_whole_buffer (w : World) (tr : Transport) (h : list Call)
    (it : Iter) : Prop :=
  ∀ b, CDecode b ∈ it_calls it →
    length b = 2000%nat ∧
    ∃ i rd,
      it_calls it !! i = Some rd ∧ read_size rd = Some 2000%nat ∧
      it_calls it !! S i = Some (CDecode b) ∧
      b = filled (received w tr (h ++ take (S i) (it_calls it))).

(** ** Worlds to run the program in *)

(** A world, with one of its answers replaced. *)
Definition with_stun_Build (v : list Call → result Message) (w : World) : World :=
  {| net_ListenPacket := net_ListenPacket w; time_Now := time_Now w;
     conn_SetDeadline := conn_SetDeadline w;
     conn_SetReadDeadline := conn_SetReadDeadline w; stun_Build := v;
     msg_MarshalBinary := msg_MarshalBinary w; net_lookup := net_lookup w;
     conn_WriteTo := conn_WriteTo w; conn_Write := conn_Write w;
     conn_ReadFrom := conn_ReadFrom w; conn_Read := conn_Read w;
     stun_Decode := stun_Decode w; xor_GetFrom := xor_GetFrom w;
     dialer_Dial := dialer_Dial w; conn_Close := conn_Close w;
     Addr_String := Addr_String w |}.
Definition with_net_lookup (v : list Call → result (list Addr)) (w : World) : World :=
  {| net_ListenPacket := net_ListenPacket w; time_Now := time_Now w;
     conn_SetDeadline := conn_SetDeadline w;
     conn_SetReadDeadline := conn_SetReadDeadline w;
     stun_Build := stun_Build w; msg_MarshalBinary := msg_MarshalBinary w;
     net_lookup := v; conn_WriteTo := conn_WriteTo w;
     conn_Write := conn_Write w; conn_ReadFrom := conn_ReadFrom w;
     conn_Read := conn_Read w; stun_Decode := stun_Decode w;
     xor_GetFrom := xor_GetFrom w; dialer_Dial := dialer_Dial w;
     conn_Close := conn_Close w; Addr_String := Addr_String w |}.
Definition with_conn_ReadFrom (v : list Call → bytes * Z * Addr * option error) (w : World) : World :=
  {| net_ListenPacket := net_ListenPacket w; time_Now := time_Now w;
     conn_SetDeadline := conn_SetDeadline w;
     conn_SetReadDeadline := conn_SetReadDeadline w;
     stun_Build := stun_Build w; msg_MarshalBinary := msg_MarshalBinary w;
     net_lookup := net_lookup w; conn_WriteTo := conn_WriteTo w;
     conn_Write := conn_Write w; conn_ReadFrom := v;
     conn_Read := conn_Read w; stun_Decode := stun_Decode w;
     xor_GetFrom := xor_GetFrom w; dialer_Dial := dialer_Dial w;
     conn_Close := conn_Close w; Addr_String := Addr_String w |}.
Definition with_conn_Read (v : list Call → bytes * Z * option error) (w : World) : World :=
  {| net_ListenPacket := net_ListenPacket w; time_Now := time_Now w;
     conn_SetDeadline := conn_SetDeadline w;
     conn_SetReadDeadline := conn_SetReadDeadline w;
     stun_Build := stun_Build w; msg_MarshalBinary := msg_MarshalBinary w;
     net_lookup := net_lookup w; conn_WriteTo := conn_WriteTo w;
     conn_Write := conn_Write w; conn_ReadFrom := conn_ReadFrom w;
     conn_Read := v; stun_Decode := stun_Decode w;
     xor_GetFrom := xor_GetFrom w; dialer_Dial := dialer_Dial w;
     conn_Close := conn_Close w; Addr_String := Addr_String w |}.
Definition with_dialer_Dial (v : list Call → result Conn) (w : World) : World :=
  {| net_ListenPacket := net_ListenPacket w; time_Now := time_Now w;
     conn_SetDeadline := conn_SetDeadline w;
     conn_SetReadDeadline := conn_SetReadDeadline w;
     stun_Build := stun_Build w; msg_MarshalBinary := msg_MarshalBinary w;
     net_lookup := net_lookup w; conn_WriteTo := conn_WriteTo w;
     conn_Write := conn_Write w; conn_ReadFrom := conn_ReadFrom w;
     conn_Read := conn_Read w; stun_Decode := stun_Decode w;
     xor_GetFrom := xor_GetFrom w; dialer_Dial := v;
     conn_Close := conn_Close w; Addr_String := Addr_String w |}.

(** A toy codec: one byte for the class, then the transaction ID. *)
Definition class_byte (c : MessageClass) : byte :=
  match c with
  | ClassRequest => x00 | ClassIndication => x01
  | ClassSuccessResponse => x02 | ClassErrorResponse => x03
  end.
Definition byte_class (b : byte) : MessageClass :=
  match b with
  | x00 => ClassRequest | x01 => ClassIndication
  | x02 => ClassSuccessResponse | _ => ClassErrorResponse
  end.
Definition toy_Decode (b : bytes) : result Message :=
  match b with
  | [] => Err "unexpected EOF"
  | c :: rest =>
      Ok {| Class := byte_class c; TransactionID := take 12 rest; Attributes := [] |}
  end.
Definition toy_request : Message :=
  {| Class := ClassRequest;
     TransactionID := [x01; x02; x03; x04; x05; x06; x07; x08; x09; x0a; x0b; x0c];
     Attributes := [] |}.

(** A world in which every server answers the request with a success
    response that carries the same transaction ID: every call succeeds,
    every write is complete, each dial gives a new connection, and the
    clock ticks once per call. *)
Definition lab : World := {|
  net_ListenPacket := λ _, Ok 0%nat;
  time_Now := λ h, Z.of_nat (length h);
  conn_SetDeadline := λ _, None;
  conn_SetReadDeadline := λ _, None;
  stun_Build := λ _, Ok toy_request;
  msg_MarshalBinary := λ m, Ok (class_byte (Class m) :: TransactionID m);
  net_lookup := λ _, Ok [{| addr_IP := IPv4 3221225985; addr_Port := 3478 |}];
  conn_WriteTo := λ _, (13, None);
  conn_Write := λ _, (13, None);
  conn_ReadFrom := λ _,
    (x02 :: TransactionID toy_request, 13,
     {| addr_IP := IPv4 3221225985; addr_Port := 3478 |}, None);
  conn_Read := λ _, (x02 :: TransactionID toy_request, 13, None);
  stun_Decode := toy_Decode;
  xor_GetFrom := λ _, Ok {| addr_IP := IPv4 3405803781; addr_Port := 54321 |};
  dialer_Dial := λ h, Ok (length h);
  conn_Close := λ _, None;
  Addr_String := λ a,
    match a with
    | {| addr_IP := IPv4 3405803781; addr_Port := 54321 |} => "203.0.113.5:54321"
    | {| addr_IP := IPv4 _ |} => "192.0.2.1:3478"
    | {| addr_IP := IPv6 _ |} => "[2001:db8::1]:3478"
    end%N;
|}.

Definition lab_logger (name : string) : Logger :=
  Sublogger (NewLogger "nat-testing") name.

(** The servers refuse TCP connections. *)
Definition refused : World :=
  with_dialer_Dial (λ _, Err "connection refused") lab.

(** No name resolves. *)
Definition unresolved : World :=
  with_net_lookup (λ _, Err "no such host") lab.

(** The codec cannot draw a transaction ID. *)
Definition no_entropy : World :=
  with_stun_Build (λ _, Err "unexpected EOF") lab.

(** Every name has an IPv6 address only. *)
Definition ipv6_only : World :=
  with_net_lookup (λ _, Ok [{| addr_IP := IPv6 1; addr_Port := 3478 |}]) lab.

(** The servers answer with a transaction ID whose last byte differs. *)
Definition forged : World :=
  with_conn_ReadFrom
    (λ _, (x02 :: [x01; x02; x03; x04; x05; x06; x07; x08; x09; x0a; x0b; xff], 13,
           {| addr_IP := IPv4 3221225985; addr_Port := 3478 |}, None))
    lab.

(** [w], with the source address of every datagram replaced. *)
Definition with_source (g : list Call → Addr) (w : World) : World :=
  with_conn_ReadFrom
    (λ h, let '(data, n, _, err) := conn_ReadFrom w h in (data, n, g h, err)) w.

(** [w], with the count of every read replaced. *)
Definition with_count (g : list Call → Z) (w : World) : World :=
  with_conn_Read
    (λ h, let '(data, _, err) := conn_Read w h in (data, g h, err))
    (with_conn_ReadFrom
       (λ h, let '(data, _, src, err) := conn_ReadFrom w h in (data, g h, src, err))
       w).

Definition one_server : Config :=
  {| stunServerURLsToTestUDP := ["stun.example.com:3478"];
     stunServerURLsToTestTCP := ["stun.example.com:3478"] |}.

Definition two_servers : Config :=
  {| stunServerURLsToTestUDP := ["a.example:3478"; "b.example:3478"];
     stunServerURLsToTestTCP := ["a.example:3478"; "b.example:3478"] |}.

(** ** More readings of the calls *)

Definition is_report (c : Call) : bool :=
  match c with CLogSTUNResults _ _ => true | _ => false end.

(** The connection a call is made on. *)
Definition conn_of (c : Call) : option Conn :=
  match c with
  | CSetDeadline k _ | CSetReadDeadline k _ | CWriteTo k _ _ | CWrite k _
  | CReadFrom k _ | CRead k _ | CClose k => Some k
  | _ => None
  end.

(** The connections an iteration opens: none in the UDP loop, the one its
    dial returns in the TCP loop. *)
Definition dialed (w : World) (tr : Transport) (timeout : Duration)
    (h : list Call) (url : string) : list Conn :=
  match tr with
  | UDP => []
  | TCP =>
      match dialer_Dial w (h ++ [CDial (dialer_of timeout) "tcp" url]) with
      | Ok c => [c]
      | Err _ => []
      end
  end.

(** An iteration defers the close of the connections it opens, closes
    nothing itself and reports nothing. *)
Definition defers_dialed (w : World) (tr : Transport) (timeout : Duration)
    (h : list Call) (url : string) (it : Iter) : Prop :=
  it_defers it = dialed w tr timeout h url ∧
  List.filter is_close (it_calls it) = [] ∧
  List.filter is_report (it_calls it) = [].

(** [w], with the errors of every close replaced. *)
Definition with_conn_Close (v : list Call → option error) (w : World) : World :=
  {| net_ListenPacket := net_ListenPacket w; time_Now := time_Now w;
     conn_SetDeadline := conn_SetDeadline w;
     conn_SetReadDeadline := conn_SetReadDeadline w;
     stun_Build := stun_Build w; msg_MarshalBinary := msg_MarshalBinary w;
     net_lookup := net_lookup w; conn_WriteTo := conn_WriteTo w;
     conn_Write := conn_Write w; conn_ReadFrom := conn_ReadFrom w;
     conn_Read := conn_Read w; stun_Decode := stun_Decode w;
     xor_GetFrom := xor_GetFrom w; dialer_Dial := dialer_Dial w;
     conn_Close := v; Addr_String := Addr_String w |}.

(** A call, with the error handed to [UncheckedError] forgotten. *)
Definition forget_close_error (c : Call) : Call :=
  match c with CUncheckedError _ => CUncheckedError None | _ => c end.

(** What the world answers to the send that ends the calls [hh]. *)
Definition write_answer (w : World) (tr : Transport) (hh : list Call) : Z * option error :=
  match tr with UDP => conn_WriteTo w hh | TCP => conn_Write w hh end.

(** The duration of a record is the time between two readings of the
    clock: the one just before the send, and the last call of the
    iteration. *)
Definition duration_measured (w : World) (h : list Call) (it : Iter) : Prop :=
  ∀ r d,
    r ∈ it_recs it → TimeToBindResponse r = Some d →
    ∃ i sd,
      it_calls it !! i = Some CNow ∧ it_calls it !! S i = Some sd ∧
      is_Some (sent sd) ∧ list.last (it_calls it) = Some CNow ∧
      d = Time_Sub (time_Now w (h ++ it_calls it))
            (time_Now w (h ++ take (S i) (it_calls it))).

(** Every call an iteration makes on a connection is on its own: the
    socket [conn] of the run in the UDP loop, the connection its dial
    returned in the TCP loop. *)
Definition on_own_connection (w : World) (tr : Transport) (timeout : Duration)
    (conn : Conn) (h : list Call) (url : string) (it : Iter) : Prop :=
  ∀ c k,
    c ∈ it_calls it → conn_of c = Some k →
    match tr with
    | UDP => k = conn
    | TCP => dialer_Dial w (h ++ [CDial (dialer_of timeout) "tcp" url]) = Ok k
    end.

(** Every datagram of a UDP iteration goes to the address its endpoint
    resolved to. *)
Definition sends_to_resolved (w : World) (h : list Call) (url : string)
    (it : Iter) : Prop :=
  ∀ k b a,
    CWriteTo k b a ∈ it_calls it →
    resolve ["udp"; "udp4"; "udp6"] "udp4" url
      (net_lookup w (h ++ [CResolveUDPAddr "udp4" url])) = Ok a.

(** The calls only [testUDP] makes, and the calls only [testTCP] makes. *)
Definition udp_only (c : Call) : bool :=
  match c with
  | CListenPacket _ _ | CSetDeadline _ _ | CResolveUDPAddr _ _
  | CWriteTo _ _ _ | CReadFrom _ _ => true
  | _ => false
  end.
Definition tcp_only (c : Call) : bool :=
  match c with
  | CDial _ _ _ | CSetReadDeadline _ _ | CResolveTCPAddr _ _
  | CWrite _ _ | CRead _ _ => true
  | _ => false
  end.
Definition other_transport (tr : Transport) : Call → bool :=
  match tr with UDP => tcp_only | TCP => udp_only end.

(** In a completed run from [s] to [s'], [Q] holds of every iteration of
    the loop, one iteration per configured server, where the setup gave
    the socket [conn] (UDP), the request [req] and its bytes [raw]; the
    calls of the setup and of the iterations are the first calls of the
    run. *)
Definition every_iteration (w : World) (cfg : Config) (tr : Transport)
    (lg : Logger) (timeout : Duration) (s s' : State)
    (Q : Conn → Message → bytes → list Call → string → Iter → Prop) : Prop :=
  ∃ conn req raw its,
    ready w tr timeout (calls s) conn req raw ∧
    (setup_calls w tr timeout (calls s) conn req ++ concat (it_calls <$> its))
      `prefix_of` new_calls s s' ∧
    iterations
      (λ h url it,
         probe w tr lg timeout conn req raw h url it ∧ Q conn req raw h url it)
      (calls s ++ setup_calls w tr timeout (calls s) conn req)
      (urls cfg tr) its.

(** A configuration with no server to test. *)
Definition no_servers : Config :=
  {| stunServerURLsToTestUDP := []; stunServerURLsToTestTCP := [] |}.



(** ** The steps of an iteration, from what the world answers *)

(** The connection an iteration works on, and the calls it has made when
    it has it: the socket [conn] of the run, at once, in the UDP loop; in
    the TCP loop the connection its dial returned, after the dial and the
    deadline calls of lines 167-181, when none of them failed. *)
Definition connect_step (w : World) (tr : Transport) (timeout : Duration)
    (conn : Conn) (h : list Call) (url : string) : option (Conn * list Call) :=
  match tr with
  | UDP => Some (conn, [])
  | TCP =>
      let dial := CDial (dialer_of timeout) "tcp" url in
      match dialer_Dial w (h ++ [dial]) with
      | Ok c =>
          let pre := dial :: read_deadline_calls w timeout c (h ++ [dial]) in
          if bool_decide (timeout > 0)
          then match conn_SetReadDeadline w (h ++ pre) with
               | None => Some (c, pre)
               | Some _ => None
               end
          else Some (c, pre)
      | Err _ => None
      end
  end.

(** The calls of an iteration up to its send of [raw], when it comes to
    it: it has its connection and its server resolved. *)
Definition send_step (w : World) (tr : Transport) (timeout : Duration)
    (conn : Conn) (raw : bytes) (h : list Call) (url : string) :
    option (Conn * list Call) :=
  match connect_step w tr timeout conn h url with
  | Some (c, pre) =>
      match tr with
      | UDP =>
          match resolve ["udp"; "udp4"; "udp6"] "udp4" url
                  (net_lookup w (h ++ pre ++ [CResolveUDPAddr "udp4" url])) with
          | Ok a => Some (c, pre ++ [CResolveUDPAddr "udp4" url; CNow; CWriteTo c raw a])
          | Err _ => None
          end
      | TCP =>
          match resolve ["tcp"; "tcp4"; "tcp6"] "tcp" url
                  (net_lookup w (h ++ pre ++ [CResolveTCPAddr "tcp" url])) with
          | Ok _ => Some (c, pre ++ [CResolveTCPAddr "tcp" url; CNow; CWrite c raw])
          | Err _ => None
          end
      end
  | None => None
  end.

(** The read call of a transport, into a buffer of 2000 bytes. *)
Definition read_call (tr : Transport) (c : Conn) : Call :=
  match tr with UDP => CReadFrom c 2000 | TCP => CRead c 2000 end.

(** The calls of an iteration up to its read, when it comes to it: its
    send reported no error and as many bytes as the request has. *)
Definition read_step (w : World) (tr : Transport) (timeout : Duration)
    (conn : Conn) (raw : bytes) (h : list Call) (url : string) :
    option (list Call) :=
  match send_step w tr timeout conn raw h url with
  | Some (c, pre) =>
      match write_answer w tr (h ++ pre) with
      | (n, None) =>
          if bool_decide (n ≠ Z.of_nat (length raw))
          then None
          else Some (pre ++ [read_call tr c])
      | (_, Some _) => None
      end
  | None => None
  end.

(** The error the world reports at the read that ends the calls [hh]. *)
Definition read_error (w : World) (tr : Transport) (hh : list Call) : option error :=
  match tr with
  | UDP => (conn_ReadFrom w hh).2
  | TCP => (conn_Read w hh).2
  end.

(** The response of the server of an iteration: the buffer after the
    read, when the iteration comes to its read and the read reports no
    error. *)
Definition response (w : World) (tr : Transport) (timeout : Duration)
    (conn : Conn) (raw : bytes) (h : list Call) (url : string) : option bytes :=
  match read_step w tr timeout conn raw h url with
  | Some pre =>
      match read_error w tr (h ++ pre) with
      | None => Some (filled (received w tr (h ++ pre)))
      | Some _ => None
      end
  | None => None
  end.

(** An iteration that comes to its send sends [raw], once, after the
    calls that lead to it; an iteration that does not sends nothing. *)
Definition sends_request (w : World) (tr : Transport) (timeout : Duration)
    (conn : Conn) (raw : bytes) (h : list Call) (url : string) (it : Iter) : Prop :=
  match send_step w tr timeout conn raw h url with
  | Some (_, pre) =>
      pre `prefix_of` it_calls it ∧ omap sent (it_calls it) = [raw]
  | None => omap sent (it_calls it) = []
  end.

(** An iteration reads once, into a buffer of 2000 bytes and right after
    its send, when the send went through whole; otherwise it reads
    nothing. *)
Definition reads_after_write (w : World) (tr : Transport) (timeout : Duration)
    (conn : Conn) (raw : bytes) (h : list Call) (url : string) (it : Iter) : Prop :=
  match read_step w tr timeout conn raw h url with
  | Some pre =>
      pre `prefix_of` it_calls it ∧ omap read_size (it_calls it) = [2000%nat]
  | None => omap read_size (it_calls it) = []
  end.

(** The buffers an iteration hands to the decoder. *)
Definition decoded (c : Call) : option bytes :=
  match c with CDecode b => Some b | _ => None end.

(** An iteration whose server responded hands the whole buffer to the
    decoder, once and right after the read; an iteration without a
    response decodes nothing. *)
Definition decodes_response (w : World) (tr : Transport) (timeout : Duration)
    (conn : Conn) (raw : bytes) (h : list Call) (url : string) (it : Iter) : Prop :=
  match read_step w tr timeout conn raw h url,
        response w tr timeout conn raw h url with
  | Some pre, Some buf =>
      (pre ++ [CDecode buf]) `prefix_of` it_calls it ∧
      omap decoded (it_calls it) = [buf]
  | _, _ => omap decoded (it_calls it) = []
  end.

(** The buffer [buf] decodes to a success response with the mapped
    address [x] and the transaction ID of the request. *)
Definition accepts (w : World) (req : Message) (buf : bytes) (x : Addr) : Prop :=
  ∃ m, stun_Decode w buf = Ok m ∧ Class m = ClassSuccessResponse ∧
       xor_GetFrom w m = Ok x ∧ TransactionID m = TransactionID req.

(** The mapped address of the record of an iteration comes from the
    response of its server, and only from it: a record has a mapped
    address only if the server responded and the response is accepted,
    and it is the address of that response; and when the server responded
    and the response is accepted, the iteration has one record, with that
    address and with a duration. *)
Definition outcome_of_response (w : World) (tr : Transport) (timeout : Duration)
    (conn : Conn) (req : Message) (raw : bytes) (h : list Call) (url : string)
    (it : Iter) : Prop :=
  (∀ r a, r ∈ it_recs it → BindResponseAddr r = Some a →
     ∃ buf x, response w tr timeout conn raw h url = Some buf ∧
              accepts w req buf x ∧ a = Addr_String w x) ∧
  (∀ buf x, response w tr timeout conn raw h url = Some buf →
     accepts w req buf x →
     ∃ r, it_recs it = [r] ∧ BindResponseAddr r = Some (Addr_String w x) ∧
          is_Some (TimeToBindResponse r)).

(** ** Frames and loops *)

Lemma alter_snoc {A} (f : A → A) (l : list A) (x : A) :
  alter f (length l) (l ++ [x]) = l ++ [f x].
Proof. induction l; simpl; [done|]. by f_equal. Qed.

Lemma deref_seq (h rs : list STUNResponse) :
  deref (h ++ rs) (seq (length h) (length rs)) = rs.
Proof.
  revert h. induction rs as [|r rs IH]; intros h; [done|].
  simpl. unfold deref in *. simpl.
  rewrite lookup_app_r; [|lia]. rewrite Nat.sub_diag. simpl. f_equal.
  specialize (IH (h ++ [r])). rewrite <- app_assoc, length_app in IH.
  simpl in IH. by rewrite Nat.add_1_r in IH.
Qed.

Lemma frame_frame s it1 it2 :
  frame (frame s it1) it2 =
  frame s {| it_calls := it_calls it1 ++ it_calls it2;
             it_recs := it_recs it1 ++ it_recs it2;
             it_defers := it_defers it2 ++ it_defers it1 |}.
Proof.
  unfold frame. simpl. f_equal.
  - by rewrite app_assoc.
  - by rewrite app_assoc.
  - rewrite !length_app, seq_app, app_assoc. done.
  - by rewrite app_assoc.
Qed.

Lemma frame_nil s :
  frame s {| it_calls := []; it_recs := []; it_defers := [] |} = s.
Proof. destruct s. unfold frame. simpl. by rewrite !app_nil_r. Qed.

Lemma iters_join_cons it its :
  iters_join (it :: its) =
  {| it_calls := it_calls it ++ it_calls (iters_join its);
     it_recs := it_recs it ++ it_recs (iters_join its);
     it_defers := it_defers (iters_join its) ++ it_defers it |}.
Proof.
  unfold iters_join. simpl. f_equal.
  rewrite reverse_cons, concat_app. simpl. by rewrite app_nil_r.
Qed.

(** A loop whose body never returns runs every iteration: the final state
    is the initial one framed by the iterations, in order. *)
Lemma range_iterations {A} (P : list Call → A → Iter → Prop) (body : A → M unit) :
  (∀ x s, ∃ c it, body x s = (c, frame s it) ∧ (∀ e, c ≠ Return e) ∧ P (calls s) x it) →
  ∀ l s, ∃ its,
    range l body s = (Normal tt, frame s (iters_join its)) ∧
    iterations P (calls s) l its.
Proof.
  intros Hbody l. induction l as [|x l IH]; intros s.
  - exists []. split; [|constructor]. simpl. unfold iters_join. simpl.
    by rewrite frame_nil.
  - destruct (Hbody x s) as (c & it & Hx & Hc & HP).
    destruct (IH (frame s it)) as (its & Hl & Hits).
    exists (it :: its). split.
    + simpl. rewrite Hx.
      destruct c as [[]| |e]; [| |by destruct (Hc e)];
        by rewrite Hl, frame_frame, iters_join_cons.
    + by constructor.
Qed.

Lemma iterations_impl {A} (P Q : list Call → A → Iter → Prop) h l its :
  (∀ h x it, P h x it → Q h x it) →
  iterations P h l its → iterations Q h l its.
Proof. intros HPQ. induction 1; constructor; auto. Qed.

(** ** Tactics: running a body along each of its paths *)

Ltac destruct_innermost t :=
  lazymatch t with
  | context [match ?x with _ => _ end] => destruct_innermost x
  | range _ _ _ => fail
  | run_deferred _ _ _ => fail
  | _ => destruct t eqn:?
  end.

Ltac exec_simpl :=
  unfold ask, invoke, continue, return_, assign,
       NewSTUNResponse, append_stunResponses, defer_Close, log,
       set_calls, set_heap, set_stunResponses, set_deferred;
  cbn [calls heap stunResponses deferred fst snd].

Ltac exec :=
  unfold mbind, mret, M_bind, M_ret;
  exec_simpl;
  repeat (match goal with
          | |- context [match ?x with _ => _ end] => destruct_innermost x
          end; exec_simpl).

Ltac norm_run :=
  unfold frame, setup_calls, open_calls, deadline_calls, Time_Add,
    failed_state, completed_state, owned in *;
  cbn [calls heap stunResponses deferred] in *;
  repeat match goal with
         | H : bool_decide _ = _ |- _ =>
             rewrite ?H in *;
             first [apply bool_decide_eq_true in H | apply bool_decide_eq_false in H]
         end;
  rewrite <- ?app_assoc in *; cbn [app] in *; rewrite ?deref_seq.

Ltac unfold_probe :=
  unfold body, probeUDP, probeTCP, check_response, ResolveUDPAddr,
    ResolveTCPAddr, Dial, SetReadDeadline, WriteTo, Write, ReadFrom, Read,
    Decode, GetFrom, Since, Now, dialer_of.

Ltac norm_bool :=
  repeat match goal with
         | H : bool_decide _ = true |- _ => apply bool_decide_eq_true in H
         | H : bool_decide _ = false |- _ => apply bool_decide_eq_false in H
         end.

(** Unfold the worlds that differ from a world in what a read reports. *)
Ltac unfold_world :=
  cbn [with_count with_source with_conn_Read with_conn_ReadFrom
       net_ListenPacket time_Now conn_SetDeadline conn_SetReadDeadline
       stun_Build msg_MarshalBinary net_lookup conn_WriteTo conn_Write
       conn_ReadFrom conn_Read stun_Decode xor_GetFrom dialer_Dial
       conn_Close Addr_String].

(** Find the read that comes before a decode. *)
Ltac find_read :=
  let go i :=
    (exists i; eexists; split; [reflexivity|];
     split; [reflexivity|]; split; [reflexivity|]) in
  first [ go 0%nat | go 1%nat | go 2%nat | go 3%nat | go 4%nat
        | go 5%nat | go 6%nat | go 7%nat | go 8%nat ].

(** Unfold a world that differs from a world in what a close reports. *)
Ltac unfold_close_world :=
  cbn [with_conn_Close
       net_ListenPacket time_Now conn_SetDeadline conn_SetReadDeadline
       stun_Build msg_MarshalBinary net_lookup conn_WriteTo conn_Write
       conn_ReadFrom conn_Read stun_Decode xor_GetFrom dialer_Dial
       conn_Close Addr_String].

(** Find the reading of the clock that comes before a send. *)
Ltac find_start :=
  let go i :=
    (exists i; eexists; split; [reflexivity|];
     split; [reflexivity|]; split; [by eexists|]; split; [reflexivity|]) in
  first [ go 0%nat | go 1%nat | go 2%nat | go 3%nat | go 4%nat
        | go 5%nat | go 6%nat ].

(** Read what the world answered along a path. *)
Ltac answer :=
  repeat match goal with
         | H : bool_decide ?P = _ |- context [bool_decide ?P] => rewrite H
         | H : dialer_Dial ?w ?h = _ |- context [dialer_Dial ?w ?h] => rewrite H
         | H : conn_SetReadDeadline ?w ?h = _
           |- context [conn_SetReadDeadline ?w ?h] => rewrite H
         | H : resolve ?n ?k ?u ?l = _ |- context [resolve ?n ?k ?u ?l] => rewrite H
         | H : conn_WriteTo ?w ?h = _ |- context [conn_WriteTo ?w ?h] => rewrite H
         | H : conn_Write ?w ?h = _ |- context [conn_Write ?w ?h] => rewrite H
         | H : conn_ReadFrom ?w ?h = _ |- context [conn_ReadFrom ?w ?h] => rewrite H
         | H : conn_Read ?w ?h = _ |- context [conn_Read ?w ?h] => rewrite H
         end.

Ltac answers :=
  repeat (progress (answer;
                    cbn [app write_answer read_error received read_call fst snd];
                    rewrite <- ?app_assoc; cbn [app])).

(** Work out the steps of an iteration along a path. *)
Ltac steps w tr timeout conn raw h url :=
  let Hc := fresh "Hconnect" in
  let Hs := fresh "Hsend" in
  let Hr := fresh "Hread" in
  let Hp := fresh "Hresponse" in
  eassert (connect_step w tr timeout conn h url = _) as Hc
    by (unfold connect_step, read_deadline_calls, dialer_of; answers; reflexivity);
  eassert (send_step w tr timeout conn raw h url = _) as Hs
    by (unfold send_step; rewrite Hc; answers; reflexivity);
  eassert (read_step w tr timeout conn raw h url = _) as Hr
    by (unfold read_step; rewrite Hs; answers; reflexivity);
  eassert (response w tr timeout conn raw h url = _) as Hp
    by (unfold response; rewrite Hr; answers; reflexivity);
  unfold outcome_of_response, decodes_response, reads_after_write, sends_request;
  rewrite ?Hp, ?Hr, ?Hs; cbn [it_calls it_recs].

(** Find which call of a list of calls a call is. *)
Ltac invert_elem H :=
  first [ apply elem_of_nil in H; destruct H
        | apply elem_of_cons in H; destruct H as [H|H];
          [try discriminate H; simplify_eq | invert_elem H] ].

(** Name the iteration a finished path has run. *)
Ltac framed :=
  rewrite ?alter_snoc; rewrite <- ?app_assoc; cbn [app];
  lazymatch goal with
  | |- ∃ c it, (?c0, {| calls := calls ?s ++ ?seg; heap := ?h;
                        stunResponses := _; deferred := ?d |}) = _ ∧ _ =>
      let rs := lazymatch h with
                | heap s ++ ?rs => rs
                | heap s => constr:(@nil STUNResponse)
                end in
      let ds := lazymatch d with
                | ?c :: deferred s => constr:([c])
                | deferred s => constr:(@nil Conn)
                end in
      exists c0, {| it_calls := seg; it_recs := rs; it_defers := ds |};
      split; [unfold frame; cbn [it_calls it_recs it_defers length seq app];
              rewrite ?app_nil_r; reflexivity|];
      split; [done|]
  end.

(** ** Symbolic execution of the bodies *)

Lemma body_framed w tr lg timeout conn req raw url s :
  ∃ c it, body w tr lg timeout conn req raw url s = (c, frame s it) ∧
          (∀ e, c ≠ Return e) ∧ True.
Proof. destruct tr; unfold_probe; exec; framed; done. Qed.

Lemma frame_inj s it it' : frame s it = frame s it' → it = it'.
Proof.
  destruct it, it'. unfold frame. simpl. intros [= H1 H2 _ H4].
  apply app_inv_head in H1, H2. apply app_inv_tail in H4. congruence.
Qed.

(** A property shown along every path of the body holds of every
    iteration. *)
Lemma probe_property (Q : list Call → string → Iter → Prop)
    w tr lg timeout conn req raw :
  (∀ url s, ∃ c it, body w tr lg timeout conn req raw url s = (c, frame s it) ∧
                    (∀ e, c ≠ Return e) ∧ Q (calls s) url it) →
  ∀ h url it, probe w tr lg timeout conn req raw h url it → Q h url it.
Proof.
  intros HQ h url it (s & c & <- & Hrun).
  destruct (HQ url s) as (c' & it' & Hrun' & _ & HQ').
  rewrite Hrun in Hrun'. assert (Hf : frame s it = frame s it') by congruence.
  by rewrite (frame_inj _ _ _ Hf).
Qed.

Lemma loop_iterations w tr lg timeout conn req raw l s :
  ∃ its,
    range l (body w tr lg timeout conn req raw) s
      = (Normal tt, frame s (iters_join its)) ∧
    iterations (probe w tr lg timeout conn req raw) (calls s) l its.
Proof.
  apply range_iterations. intros url s0.
  destruct (body_framed w tr lg timeout conn req raw url s0) as (c & it & H & Hc & _).
  exists c, it. split; [done|]. split; [done|]. by exists s0, c.
Qed.

Lemma run_deferred_closing w cs s :
  run_deferred w cs s
  = (Normal tt, set_calls (calls s ++ closing w (calls s) cs) s).
Proof.
  revert s. induction cs as [|c cs IH]; intros s.
  - simpl. unfold mret, M_ret. destruct s; unfold set_calls; simpl.
    by rewrite app_nil_r.
  - simpl. unfold Close_unchecked. exec. rewrite IH. unfold set_calls. simpl.
    by rewrite <- !app_assoc.
Qed.

Lemma testUDP_shape w cfg lg timeout s r :
  testUDP w cfg lg timeout s = r →
  (∃ err pre cs,
      fatal w lg timeout (calls s) UDP err pre cs ∧
      r = (Some err, failed_state w s pre cs)) ∨
  (∃ conn req raw its,
      ready w UDP timeout (calls s) conn req raw ∧
      iterations (probe w UDP lg timeout conn req raw)
        (calls s ++ setup_calls w UDP timeout (calls s) conn req)
        (stunServerURLsToTestUDP cfg) its ∧
      r = (None, completed_state w lg s
                 (setup_calls w UDP timeout (calls s) conn req)
                 (iters_join its) [conn])).
Proof.
  unfold testUDP, func, testUDP_body, ListenPacket, SetDeadline, Now, Build,
    MarshalBinary, Time_Add.
  exec.
  all: try match goal with
    | |- context [range ?l (probeUDP _ _ ?conn ?req ?raw) ?s0] =>
        destruct (loop_iterations w UDP lg timeout conn req raw l s0)
          as (its & Hloop & Hits);
        unfold body in Hloop; rewrite Hloop; clear Hloop;
        unfold logSTUNResults; exec
    end.
  all: rewrite run_deferred_closing; exec; intros <-.
  all: lazymatch goal with
    | H : net_ListenPacket _ _ = Err ?e |- _ =>
        left; eexists e, _, []; split; [by apply fatal_listen|]
    | H : conn_SetDeadline _ _ = Some ?e, Hc : net_ListenPacket _ _ = Ok ?c |- _ =>
        left; exists e, (open_calls w UDP timeout (calls s) c), [c]; split;
        [apply fatal_deadline|]
    | H : stun_Build _ _ = Err ?e, Hc : net_ListenPacket _ _ = Ok ?c |- _ =>
        left; exists e, (open_calls w UDP timeout (calls s) c ++ [CBuild]), (owned UDP c);
        split; [apply fatal_build; [split|]|]
    | H : msg_MarshalBinary _ ?m = Err ?e, Hc : net_ListenPacket _ _ = Ok ?c |- _ =>
        left; exists e, (setup_calls w UDP timeout (calls s) c m), (owned UDP c);
        split; [apply fatal_marshal; [split| |]|]
    | H : msg_MarshalBinary _ ?m = Ok ?b, Hc : net_ListenPacket _ _ = Ok ?c |- _ =>
        right; exists c, m, b, its; split; [split; [split|split]|split]
    end.
  all: norm_run; try done; try lia.
Qed.

Lemma testTCP_shape w cfg lg timeout s r :
  testTCP w cfg lg timeout s = r →
  (∃ err pre cs,
      fatal w lg timeout (calls s) TCP err pre cs ∧
      r = (Some err, failed_state w s pre cs)) ∨
  (∃ conn req raw its,
      ready w TCP timeout (calls s) conn req raw ∧
      iterations (probe w TCP lg timeout conn req raw)
        (calls s ++ setup_calls w TCP timeout (calls s) conn req)
        (stunServerURLsToTestTCP cfg) its ∧
      r = (None, completed_state w lg s
                 (setup_calls w TCP timeout (calls s) conn req)
                 (iters_join its) [])).
Proof.
  unfold testTCP, func, testTCP_body, Build, MarshalBinary.
  exec.
  all: try match goal with
    | |- context [range ?l (probeTCP _ _ _ _ ?req ?raw) ?s0] =>
        destruct (loop_iterations w TCP lg timeout 0%nat req raw l s0)
          as (its & Hloop & Hits);
        unfold body, dialer_of in Hloop; rewrite Hloop; clear Hloop;
        unfold logSTUNResults; exec
    end.
  all: rewrite run_deferred_closing; exec; intros <-.
  all: lazymatch goal with
    | H : stun_Build _ _ = Err ?e |- _ =>
        left; exists e, (open_calls w TCP timeout (calls s) 0%nat ++ [CBuild]),
                (owned TCP 0%nat);
        split; [apply fatal_build; [done|]|]
    | H : msg_MarshalBinary _ ?m = Err ?e |- _ =>
        left; exists e, (setup_calls w TCP timeout (calls s) 0%nat m), (owned TCP 0%nat);
        split; [apply fatal_marshal; [done| |]|]
    | H : msg_MarshalBinary _ ?m = Ok ?b |- _ =>
        right; exists 0%nat, m, b, its; split; [split; [done|split]|split]
    end.
  all: norm_run; rewrite ?app_nil_r; try done.
Qed.

(** Every run either fails in its setup, or runs one iteration per
    configured server and completes. *)
Lemma test_shape w cfg tr lg timeout s :
  (∃ err pre cs,
      fatal w lg timeout (calls s) tr err pre cs ∧
      test w cfg tr lg timeout s = (Some err, failed_state w s pre cs)) ∨
  (∃ conn req raw its,
      ready w tr timeout (calls s) conn req raw ∧
      iterations (probe w tr lg timeout conn req raw)
        (calls s ++ setup_calls w tr timeout (calls s) conn req)
        (urls cfg tr) its ∧
      test w cfg tr lg timeout s
      = (None, completed_state w lg s
                 (setup_calls w tr timeout (calls s) conn req)
                 (iters_join its) (owned tr conn))).
Proof.
  destruct tr; simpl.
  - by apply testUDP_shape.
  - by apply testTCP_shape.
Qed.

Lemma test_completed w cfg tr lg timeout s s' :
  test w cfg tr lg timeout s = (None, s') →
  ∃ conn req raw its,
    ready w tr timeout (calls s) conn req raw ∧
    iterations (probe w tr lg timeout conn req raw)
      (calls s ++ setup_calls w tr timeout (calls s) conn req)
      (urls cfg tr) its ∧
    s' = completed_state w lg s (setup_calls w tr timeout (calls s) conn req)
           (iters_join its) (owned tr conn).
Proof.
  intros Hrun.
  destruct (test_shape w cfg tr lg timeout s)
    as [(err & pre & cs & _ & H)|(conn & req & raw & its & Hr & Hits & H)];
    rewrite H in Hrun; [done|].
  exists conn, req, raw, its. by simplify_eq.
Qed.

Lemma batch_completed w lg s pre it cs :
  batch (completed_state w lg s pre it cs) = it_recs it.
Proof. unfold batch, completed_state. simpl. apply deref_seq. Qed.

(** ** The records of a run *)

Lemma body_records w tr lg timeout conn req raw url s :
  ∃ c it, body w tr lg timeout conn req raw url s = (c, frame s it) ∧
          (∀ e, c ≠ Return e) ∧ records_of tr url it.
Proof.
  destruct tr; unfold_probe; exec; framed; unfold records_of; simpl;
    (split; [repeat constructor|lia]).
Qed.

Lemma iterations_records_UDP w lg timeout conn req raw h l its :
  iterations (probe w UDP lg timeout conn req raw) h l its →
  STUNServerURL <$> it_recs (iters_join its) = l.
Proof.
  induction 1 as [|h x l it its HP _ IH]; [done|].
  rewrite iters_join_cons. cbn [it_recs]. rewrite fmap_app, IH.
  apply (probe_property (λ _, records_of UDP) _ _ _ _ _ _ _
           (body_records w UDP lg timeout conn req raw)) in HP.
  destruct HP as [Hurl Hlen]. destruct (it_recs it) as [|r [|??]]; try done.
  simpl. by inversion Hurl; subst.
Qed.

Lemma iterations_records_TCP w lg timeout conn req raw h l its :
  iterations (probe w TCP lg timeout conn req raw) h l its →
  STUNServerURL <$> it_recs (iters_join its) `sublist_of` l.
Proof.
  induction 1 as [|h x l it its HP _ IH]; [done|].
  rewrite iters_join_cons. cbn [it_recs]. rewrite fmap_app.
  apply (probe_property (λ _, records_of TCP) _ _ _ _ _ _ _
           (body_records w TCP lg timeout conn req raw)) in HP.
  destruct HP as [Hurl Hlen]. destruct (it_recs it) as [|r [|??]]; simpl in *.
  - by apply sublist_cons.
  - inversion Hurl; subst. by apply sublist_skip.
  - lia.
Qed.

(** A completed UDP run reports one record per configured server, in the
    order of the configuration. *)
Lemma testUDP_batch_urls w cfg lg timeout s s' :
  testUDP w cfg lg timeout s = (None, s') →
  STUNServerURL <$> batch s' = stunServerURLsToTestUDP cfg.
Proof.
  intros Hrun.
  destruct (test_completed w cfg UDP lg timeout s s' Hrun)
    as (conn & req & raw & its & _ & Hits & ->).
  rewrite batch_completed. by eapply iterations_records_UDP.
Qed.

(** A completed TCP run reports records of configured servers in the order
    of the configuration, but not of every server. *)
Lemma testTCP_batch_urls w cfg lg timeout s s' :
  testTCP w cfg lg timeout s = (None, s') →
  STUNServerURL <$> batch s' `sublist_of` stunServerURLsToTestTCP cfg.
Proof.
  intros Hrun.
  destruct (test_completed w cfg TCP lg timeout s s' Hrun)
    as (conn & req & raw & its & _ & Hits & ->).
  rewrite batch_completed. by eapply iterations_records_TCP.
Qed.

(** C1, at the input where the code departs from it: the one configured
    TCP server refuses the connection; the run completes without an error
    and its batch has no record, although one server is configured. *)
Lemma testTCP_refused_drops_outcome :
  let r := testTCP refused package_vars (lab_logger "tcp") (10 * Second) init in
  r.1 = None ∧ batch r.2 = [] ∧
  stunServerURLsToTestTCP package_vars = ["turn.viam.com:443"].
Proof. vm_compute. done. Qed.

(** ** Mapped address and duration *)




Lemma iterations_Forall {A} (P : list Call → A → Iter → Prop) (Q : Iter → Prop) h l its :
  (∀ h x it, P h x it → Q it) → iterations P h l its → Forall Q its.
Proof. intros HPQ. induction 1; constructor; eauto. Qed.

(** ** The steps of an iteration *)

Lemma copy_into_filled (data : bytes) : copy_into (make_bytes 2000) data = filled data.
Proof.
  unfold copy_into, make_bytes, filled. by rewrite length_replicate, drop_replicate.
Qed.

Lemma body_steps w tr lg timeout conn req raw url s :
  ∃ c it, body w tr lg timeout conn req raw url s = (c, frame s it) ∧
          (∀ e, c ≠ Return e) ∧
          sends_request w tr timeout conn raw (calls s) url it ∧
          reads_after_write w tr timeout conn raw (calls s) url it ∧
          decodes_response w tr timeout conn raw (calls s) url it ∧
          outcome_of_response w tr timeout conn req raw (calls s) url it.
Proof.
  destruct tr; unfold_probe; exec.
  all: repeat match goal with
            | H : context [copy_into] |- _ => rewrite copy_into_filled in H
            end; rewrite ?copy_into_filled.
  all: framed.
  all: repeat match goal with
            | H : context [(_ ++ _) ++ _] |- _ => rewrite <- !app_assoc in H; cbn [app] in H
            end.
  all: change (length (make_bytes 2000)) with 2000%nat in *.
  all: match goal with
            | |- sends_request ?w ?tr ?timeout ?conn ?raw ?h ?url _ ∧ _ =>
                steps w tr timeout conn raw h url
            end.
  all: split_and!.
  all: try reflexivity.
  all: try (eexists; reflexivity).
  all: norm_bool.
  all: try (intros rec str Hin Hset; invert_elem Hin; simpl in Hset;
            by simplify_eq).
  all: try (intros buf mapped Hbuf (msg & Hdec & Hcls & Hget & Htid);
            simplify_eq; congruence).
  all: try (intros rec str Hin Hset; invert_elem Hin; simpl in Hset; simplify_eq;
            eexists _, _; split; [reflexivity|];
            split; [eexists; split_and!; try eassumption|reflexivity];
            match goal with
            | |- ?x = ?y => destruct (decide (x = y)); [done|exfalso; auto]
            end).
  all: intros buf mapped Hbuf (msg & Hdec & Hcls & Hget & Htid); simplify_eq.
  all: eexists; split; [reflexivity|]; simpl; split; [congruence|by eexists].
Qed.

Lemma probe_steps w tr lg timeout conn req raw h url it :
  probe w tr lg timeout conn req raw h url it →
  sends_request w tr timeout conn raw h url it ∧
  reads_after_write w tr timeout conn raw h url it ∧
  decodes_response w tr timeout conn raw h url it ∧
  outcome_of_response w tr timeout conn req raw h url it.
Proof.
  apply (probe_property
           (λ h url it,
              sends_request w tr timeout conn raw h url it ∧
              reads_after_write w tr timeout conn raw h url it ∧
              decodes_response w tr timeout conn raw h url it ∧
              outcome_of_response w tr timeout conn req raw h url it)).
  intros. apply body_steps.
Qed.




(** The scenarios of the spec for one UDP server: an accepted response
    fills the record; a response whose transaction ID differs in one byte
    leaves mapped address and duration unset and logs the mismatch. *)
Example testUDP_accepted :
  batch (testUDP lab
           one_server
           (lab_logger "udp") (10 * Second) init).2
  = [{| STUNServerURL := "stun.example.com:3478";
        STUNServerAddr := Some "192.0.2.1:3478";
        BindResponseAddr := Some "203.0.113.5:54321";
        TimeToBindResponse := Some 5 |}].
Proof. vm_compute. reflexivity. Qed.

Example testUDP_mismatch :
  let s' := (testUDP forged
               one_server
               (lab_logger "udp") (10 * Second) init).2 in
  batch s'
  = [{| STUNServerURL := "stun.example.com:3478";
        STUNServerAddr := Some "192.0.2.1:3478";
        BindResponseAddr := None;
        TimeToBindResponse := None |}] ∧
  List.filter is_error_log (calls s')
  = [CLog (WithFields (lab_logger "udp") "stun_server_url" "stun.example.com:3478")
       Error "Transaction ID mismatch (expected %s, got %s)"
       [AStr "0102030405060708090a0b0c"; AStr "0102030405060708090a0bff"]].
Proof. vm_compute. done. Qed.

(** ** Failure isolation *)

Lemma ready_not_fatal w tr lg timeout h conn req raw err pre cs :
  ready w tr timeout h conn req raw → fatal w lg timeout h tr err pre cs → False.
Proof.
  intros (Hopen & Hbuild & Hraw) Hfatal.
  inversion Hfatal; subst; unfold opened in *; simpl in *.
  - destruct Hopen as [Hl _]. congruence.
  - destruct Hopen as [Hl Hd]. simplify_eq. specialize (Hd H0). congruence.
  - destruct tr; simpl in *; [|congruence].
    destruct Hopen as [Hl _], H as [Hl' _]. simplify_eq. congruence.
  - destruct tr; simpl in *; [|congruence].
    destruct Hopen as [Hl _], H as [Hl' _]. simplify_eq. congruence.
Qed.

Lemma ready_unique w tr timeout h conn req raw conn' req' raw' :
  ready w tr timeout h conn req raw → ready w tr timeout h conn' req' raw' →
  req' = req ∧ raw' = raw ∧ owned tr conn' = owned tr conn.
Proof.
  intros (Hopen & Hbuild & Hraw) (Hopen' & Hbuild' & Hraw').
  destruct tr; unfold opened in *; simpl in *.
  - destruct Hopen as [Hl _], Hopen' as [Hl' _]. simplify_eq. split_and!; congruence.
  - simplify_eq. split_and!; congruence.
Qed.

Lemma body_isolated w tr lg timeout conn req raw url s :
  ∃ c it, body w tr lg timeout conn req raw url s = (c, frame s it) ∧
          (∀ e, c ≠ Return e) ∧ isolated tr lg timeout url it.
Proof.
  destruct tr; unfold_probe; exec; framed.
  all: unfold isolated, succeeded; cbn [it_recs it_calls attempt dialer_of].
  all: split_and!; [by eexists| |].
  all: try (intros (r & Hr & [? Hs]); invert_elem Hr; by simplify_eq).
  all: try (intros _; eexists _, _; split; [reflexivity|];
            unfold failure_messages;
            repeat (apply elem_of_cons; first [by left | right])).
  all: intros []; eexists; split; [by apply list_elem_of_singleton|by eexists].
Qed.

(** C3: once the setup of a run has succeeded, whatever any server does,
    the run returns no error and its loop makes one iteration per
    configured server, in the order of the configuration; every iteration
    starts with the attempt at its own server, and an iteration that does
    not succeed logs one error under the name of its server and is
    followed by the next. *)
Theorem failure_isolation w cfg tr lg timeout s conn req raw :
  ready w tr timeout (calls s) conn req raw →
  ∃ its,
    test w cfg tr lg timeout s
    = (None, completed_state w lg s
               (setup_calls w tr timeout (calls s) conn req)
               (iters_join its) (owned tr conn)) ∧
    iterations
      (λ h url it, probe w tr lg timeout conn req raw h url it ∧
                   isolated tr lg timeout url it)
      (calls s ++ setup_calls w tr timeout (calls s) conn req)
      (urls cfg tr) its.
Proof.
  intros Hready.
  destruct (test_shape w cfg tr lg timeout s)
    as [(err & pre & cs & Hf & _)|(conn' & req' & raw' & its & Hr & Hits & H)].
  { destruct (ready_not_fatal _ _ _ _ _ _ _ _ _ _ _ Hready Hf). }
  destruct (ready_unique _ _ _ _ _ _ _ _ _ _ Hready Hr) as (-> & -> & Hown).
  exists its. destruct tr; simpl in Hown; [injection Hown as ->|].
  all: split; [exact H|].
  all: eapply iterations_impl; [|exact Hits]; intros h url it HP; split; [done|].
  all: revert HP; apply (probe_property (λ _, isolated _ lg timeout)).
  all: intros; apply body_isolated.
Qed.

Lemma failure_isolation_witness :
  ready unresolved UDP (10 * Second) (calls init) 0%nat toy_request
    (x00 :: TransactionID toy_request) ∧
  ∃ its,
    test unresolved two_servers UDP (lab_logger "udp") (10 * Second) init
    = (None, completed_state unresolved (lab_logger "udp") init
               (setup_calls unresolved UDP (10 * Second) (calls init) 0%nat toy_request)
               (iters_join its) (owned UDP 0%nat)) ∧
    iterations
      (λ h url it,
         probe unresolved UDP (lab_logger "udp") (10 * Second) 0%nat toy_request
           (x00 :: TransactionID toy_request) h url it ∧
         isolated UDP (lab_logger "udp") (10 * Second) url it)
      (calls init ++ setup_calls unresolved UDP (10 * Second) (calls init) 0%nat toy_request)
      (urls two_servers UDP) its.
Proof.
  assert (H : ready unresolved UDP (10 * Second) (calls init) 0%nat toy_request
                (x00 :: TransactionID toy_request)).
  { split; [split; [reflexivity|intros _; reflexivity]|split; reflexivity]. }
  split; [exact H|].
  exact (failure_isolation unresolved two_servers UDP (lab_logger "udp")
           (10 * Second) init 0%nat toy_request _ H).
Defined.

(** ** Which failures are fatal *)

Lemma fatal_functional w lg timeout h tr err pre cs err' pre' cs' :
  fatal w lg timeout h tr err pre cs → fatal w lg timeout h tr err' pre' cs' →
  err = err'.
Proof.
  intros H H'. inversion H; subst; inversion H'; subst.
  all: unfold opened in *; simpl in *.
  all: repeat match goal with
              | H : _ ∧ _ |- _ => destruct H
              | H : match ?tr with UDP => _ | TCP => _ end |- _ => destruct tr
              end.
  all: simplify_eq; try congruence.
  all: repeat match goal with
              | H : ?t > 0 → _, H' : ?t > 0 |- _ => specialize (H H')
              end; try congruence.
  all: simpl in *; congruence.
Qed.

Lemma test_returns_fatal w cfg tr lg timeout s err :
  (test w cfg tr lg timeout s).1 = Some err ↔
  ∃ pre cs, fatal w lg timeout (calls s) tr err pre cs.
Proof.
  destruct (test_shape w cfg tr lg timeout s)
    as [(err' & pre & cs & Hf & H)|(conn & req & raw & its & Hr & Hits & H)];
    rewrite H; simpl.
  - split.
    + intros [= <-]. eauto.
    + intros (pre' & cs' & Hf'). f_equal. eapply fatal_functional; eauto.
  - split; [done|]. intros (pre & cs & Hf).
    destruct (ready_not_fatal _ _ _ _ _ _ _ _ _ _ _ Hr Hf).
Qed.

(** C4, as amended: a run returns an error exactly when its setup fails,
    which for UDP is opening the socket, arming its deadline, building the
    request or serializing it, and for TCP is building the request or
    serializing it; [main] panics exactly when one of its two runs returns
    an error; no iteration of a loop ever returns, and a TCP dial failure,
    for the first server as for any other, is logged and ends its iteration
    with a [continue]. *)
Theorem fatality w cfg :
  (∀ tr lg timeout s err,
     (test w cfg tr lg timeout s).1 = Some err ↔
     ∃ pre cs, fatal w lg timeout (calls s) tr err pre cs) ∧
  (∀ s err,
     (main w cfg s).1 = Some err ↔
     let udp := testUDP w cfg (lab_logger "udp") (10 * Second) s in
     udp.1 = Some err ∨
     udp.1 = None ∧
     (testTCP w cfg (lab_logger "tcp") (10 * Second) udp.2).1 = Some err) ∧
  (∀ tr lg timeout conn req raw url s,
     ∃ c it, body w tr lg timeout conn req raw url s = (c, frame s it) ∧
             ∀ e, c ≠ Return e) ∧
  (∀ lg timeout req raw url s e,
     dialer_Dial w (calls s ++ [CDial (dialer_of timeout) "tcp" url]) = Err e →
     probeTCP w lg timeout (dialer_of timeout) req raw url s
     = (Continue,
        set_calls (calls s ++
                   [CDial (dialer_of timeout) "tcp" url;
                    CLog (WithFields lg "stun_server_url" url) Error
                      "Error dialing STUN server via tcp" []]) s)).
Proof.
  split_and!.
  - intros. apply test_returns_fatal.
  - intros s err. unfold main, lab_logger. simpl.
    destruct (testUDP _ _ _ _ s) as [[e|] s1]; simpl.
    + split; [intros [= <-]; by left|]. intros [[= <-]|[[=] _]]. done.
    + destruct (testTCP _ _ _ _ s1) as [[e|] s2]; simpl.
      * split; [intros [= <-]; by right|]. by intros [[=]|[_ [= <-]]].
      * split; [done|]. by intros [[=]|[_ [=]]].
  - intros.
    destruct (body_framed w tr lg timeout conn req raw url s) as (c & it & H & Hc & _).
    eauto.
  - intros lg timeout req raw url s e He. unfold_probe. unfold dialer_of in He.
    exec; try congruence. by rewrite <- app_assoc.
Qed.

Lemma fatality_witness :
  dialer_Dial refused
    (calls init ++ [CDial (dialer_of (10 * Second)) "tcp" "turn.viam.com:443"])
  = Err "connection refused" ∧
  probeTCP refused (lab_logger "tcp") (10 * Second) (dialer_of (10 * Second))
    toy_request (x00 :: TransactionID toy_request) "turn.viam.com:443" init
  = (Continue,
     set_calls (calls init ++
                [CDial (dialer_of (10 * Second)) "tcp" "turn.viam.com:443";
                 CLog (WithFields (lab_logger "tcp") "stun_server_url"
                         "turn.viam.com:443")
                   Error "Error dialing STUN server via tcp" []]) init).
Proof.
  split; [reflexivity|].
  exact (proj2 (proj2 (proj2 (fatality refused package_vars)))
           (lab_logger "tcp") (10 * Second) toy_request
           (x00 :: TransactionID toy_request) "turn.viam.com:443" init
           "connection refused" eq_refl).
Defined.

(** C4, as stated, fails when the codec cannot build the request: the UDP
    socket is open and its deadline armed, yet the run returns an error
    and [main] panics with it. *)
Lemma build_failure_is_fatal :
  net_ListenPacket no_entropy [CListenPacket "udp" "0.0.0.0:0"] = Ok 0%nat ∧
  conn_SetDeadline no_entropy
    [CListenPacket "udp" "0.0.0.0:0"; CNow; CSetDeadline 0%nat (2 + 10 * Second)]
  = None ∧
  testUDP no_entropy package_vars (lab_logger "udp") (10 * Second) init
  = (Some "unexpected EOF",
     {| calls := [CListenPacket "udp" "0.0.0.0:0"; CNow;
                  CSetDeadline 0%nat (2 + 10 * Second); CBuild;
                  CClose 0%nat; CUncheckedError None];
        heap := []; stunResponses := []; deferred := [] |}) ∧
  (main no_entropy package_vars init).1 = Some "unexpected EOF".
Proof. vm_compute. done. Qed.

(** ** Deferred closes *)

(** C5, at an input where the code departs from it: two TCP servers, both
    of which accept the connection.  Of the dials and closes of the run,
    the second dial comes before any close: the first connection (3) is
    still open while the second server is probed, and both connections are
    closed only when [testTCP] returns, the last one first. *)
Lemma testTCP_closes_on_return :
  List.filter (λ c, is_attempt c || is_close c)
    (calls (testTCP lab two_servers (lab_logger "tcp") (10 * Second) init).2)
  = [CDial (dialer_of (10 * Second)) "tcp" "a.example:3478";
     CDial (dialer_of (10 * Second)) "tcp" "b.example:3478";
     CClose 13%nat; CClose 3%nat] ∧
  dialer_Dial lab [CBuild; CMarshalBinary toy_request;
                   CDial (dialer_of (10 * Second)) "tcp" "a.example:3478"]
  = Ok 3%nat.
Proof. vm_compute. done. Qed.

(** ** The calls of a whole run *)

Lemma new_calls_failed w s pre cs :
  new_calls s (failed_state w s pre cs) = pre ++ closing w (calls s ++ pre) cs.
Proof. unfold new_calls, failed_state. simpl. by rewrite drop_app_length. Qed.

Lemma new_calls_completed w lg s pre it cs :
  new_calls s (completed_state w lg s pre it cs)
  = pre ++ it_calls it ++ CLogSTUNResults lg (it_recs it)
      :: closing w (calls s ++ pre ++ it_calls it ++ [CLogSTUNResults lg (it_recs it)])
           (it_defers it ++ cs).
Proof.
  unfold new_calls, completed_state. simpl.
  rewrite <- !app_assoc, drop_app_length. simpl. by rewrite <- ?app_assoc.
Qed.

Lemma closing_Forall (P : Call → Prop) w h cs :
  (∀ c, P (CClose c)) → (∀ e, P (CUncheckedError e)) → Forall P (closing w h cs).
Proof.
  intros HC HU. revert h. induction cs as [|c cs IH]; intros h; simpl;
    repeat constructor; auto.
Qed.

Lemma iterations_calls_Forall {A} (P : list Call → A → Iter → Prop)
    (Q : Call → Prop) h l its :
  (∀ h x it, P h x it → Forall Q (it_calls it)) →
  iterations P h l its → Forall Q (it_calls (iters_join its)).
Proof.
  intros HPQ. induction 1 as [|h x l it its HP _ IH].
  - constructor.
  - rewrite iters_join_cons. cbn [it_calls]. apply Forall_app. eauto.
Qed.

Lemma iters_join_calls its : it_calls (iters_join its) = concat (it_calls <$> its).
Proof. done. Qed.

(** ** One request for every server *)

Lemma body_reuses w tr lg timeout conn req raw url s :
  ∃ c it, body w tr lg timeout conn req raw url s = (c, frame s it) ∧
          (∀ e, c ≠ Return e) ∧ Forall (reuses raw) (it_calls it).
Proof.
  destruct tr; unfold_probe; exec; framed; cbn [it_calls].
  all: repeat constructor; simpl; congruence.
Qed.

(** C6: in every completed run of either transport, [stun.Build] is called
    once and its result serialized once, before the loop and before any
    send; no iteration builds or serializes a request; every iteration
    that comes to its send, its connection obtained and its server
    resolved, sends the bytes of that one serialization, once, and an
    iteration that does not come to it sends nothing; nothing is sent
    outside the iterations. *)
Theorem one_request_for_all w cfg tr lg timeout s s' :
  test w cfg tr lg timeout s = (None, s') →
  ∃ conn req raw its pre finish,
    new_calls s s'
    = pre ++ [CBuild; CMarshalBinary req] ++ concat (it_calls <$> its) ++ finish ∧
    stun_Build w (calls s ++ pre ++ [CBuild]) = Ok req ∧
    msg_MarshalBinary w req = Ok raw ∧
    Forall (λ c, is_request_build c = false ∧ sent c = None) (pre ++ finish) ∧
    iterations
      (λ h url it,
         probe w tr lg timeout conn req raw h url it ∧
         Forall (reuses raw) (it_calls it) ∧
         sends_request w tr timeout conn raw h url it)
      (calls s ++ pre ++ [CBuild; CMarshalBinary req])
      (urls cfg tr) its.
Proof.
  intros Hrun.
  destruct (test_completed w cfg tr lg timeout s s' Hrun)
    as (conn & req & raw & its & (Hopen & Hbuild & Hraw) & Hits & ->).
  exists conn, req, raw, its, (open_calls w tr timeout (calls s) conn). eexists.
  split_and!; [|exact Hbuild|exact Hraw| |].
  - rewrite new_calls_completed, iters_join_calls. unfold setup_calls.
    rewrite <- !app_assoc. reflexivity.
  - apply Forall_app. split.
    + destruct tr; simpl; [|constructor].
      unfold deadline_calls. case_bool_decide; repeat constructor.
    + constructor; [done|]. by apply closing_Forall.
  - eapply iterations_impl; [|exact Hits]. intros h url it HP. split_and!; [done| |].
    + revert HP.
      apply (probe_property (λ _ _ it, Forall (reuses raw) (it_calls it))).
      intros. apply body_reuses.
    + by apply probe_steps in HP as (HP & _).
Qed.

Lemma one_request_for_all_witness :
  let s' := (test lab two_servers TCP (lab_logger "tcp") (10 * Second) init).2 in
  test lab two_servers TCP (lab_logger "tcp") (10 * Second) init = (None, s') ∧
  ∃ conn req raw its pre finish,
    new_calls init s'
    = pre ++ [CBuild; CMarshalBinary req] ++ concat (it_calls <$> its) ++ finish ∧
    stun_Build lab (calls init ++ pre ++ [CBuild]) = Ok req ∧
    msg_MarshalBinary lab req = Ok raw ∧
    Forall (λ c, is_request_build c = false ∧ sent c = None) (pre ++ finish) ∧
    iterations
      (λ h url it,
         probe lab TCP (lab_logger "tcp") (10 * Second) conn req raw h url it ∧
         Forall (reuses raw) (it_calls it) ∧
         sends_request lab TCP (10 * Second) conn raw h url it)
      (calls init ++ pre ++ [CBuild; CMarshalBinary req])
      (urls two_servers TCP) its.
Proof.
  assert (H : test lab two_servers TCP (lab_logger "tcp") (10 * Second) init
              = (None, (test lab two_servers TCP (lab_logger "tcp")
                          (10 * Second) init).2))
    by (vm_compute; reflexivity).
  split; [exact H|].
  exact (one_request_for_all lab two_servers TCP (lab_logger "tcp")
           (10 * Second) init _ H).
Defined.

(** ** Deadlines *)

Lemma filter_closing w h cs : List.filter is_deadline (closing w h cs) = [].
Proof. revert h. induction cs as [|c cs IH]; intros h; simpl; [done|apply IH]. Qed.

Lemma filter_join {A} (P : list Call → A → Iter → Prop) (f : Call → bool) h l its :
  (∀ h x it, P h x it → List.filter f (it_calls it) = []) →
  iterations P h l its → List.filter f (it_calls (iters_join its)) = [].
Proof.
  intros HP. induction 1 as [|h x l it its Hit _ IH]; [done|].
  rewrite iters_join_cons. cbn [it_calls].
  by rewrite List.filter_app, (HP _ _ _ Hit), IH.
Qed.

Lemma body_deadline_armed w tr lg timeout conn req raw url s :
  ∃ c it, body w tr lg timeout conn req raw url s = (c, frame s it) ∧
          (∀ e, c ≠ Return e) ∧ deadline_armed w tr timeout (calls s) url it.
Proof.
  destruct tr; unfold_probe; exec; framed; unfold deadline_armed, dialer_of;
    cbn [it_calls]; try reflexivity.
  all: repeat match goal with H : dialer_Dial _ _ = _ |- _ => rewrite H end.
  all: try reflexivity.
  all: unfold read_deadline_calls;
    repeat match goal with H : bool_decide _ = _ |- _ => rewrite H end.
  all: rewrite <- ?app_assoc; by eexists.
Qed.

Lemma deadline_calls_0 w conn h : deadline_calls w 0 conn h = [].
Proof. unfold deadline_calls. by rewrite bool_decide_eq_false_2 by lia. Qed.

Lemma no_deadline_without_timeout w tr h url it :
  deadline_armed w tr 0 h url it → List.filter is_deadline (it_calls it) = [].
Proof.
  destruct tr; simpl; [done|].
  destruct (dialer_Dial w _); [|done]. by intros (rest & -> & Hrest).
Qed.

(** C7: with a timeout of 0 no run makes a deadline call; with a positive
    timeout, a UDP run whose socket opened arms [SetDeadline] with the
    clock's reading plus the timeout right after opening and makes no other
    deadline call, and in a completed TCP run every iteration whose dial
    succeeded arms [SetReadDeadline] on its connection with the clock's
    reading plus the timeout right after the dial, and there is no other
    deadline call in the run. *)
Theorem deadlines w cfg lg :
  (∀ tr s,
     List.filter is_deadline (new_calls s (test w cfg tr lg 0 s).2) = []) ∧
  (∀ timeout s conn,
     timeout > 0 →
     net_ListenPacket w (calls s ++ [CListenPacket "udp" "0.0.0.0:0"]) = Ok conn →
     ∃ rest,
       new_calls s (testUDP w cfg lg timeout s).2
       = CListenPacket "udp" "0.0.0.0:0" :: CNow
           :: CSetDeadline conn
                (Time_Add
                   (time_Now w (calls s ++ [CListenPacket "udp" "0.0.0.0:0"; CNow]))
                   timeout)
           :: rest ∧
       List.filter is_deadline rest = []) ∧
  (∀ timeout s s',
     timeout > 0 →
     testTCP w cfg lg timeout s = (None, s') →
     ∃ conn req raw its finish,
       new_calls s s'
       = CBuild :: CMarshalBinary req :: concat (it_calls <$> its) ++ finish ∧
       List.filter is_deadline finish = [] ∧
       iterations
         (λ h url it,
            probe w TCP lg timeout conn req raw h url it ∧
            let dial := CDial (dialer_of timeout) "tcp" url in
            match dialer_Dial w (h ++ [dial]) with
            | Ok c =>
                ∃ rest,
                  it_calls it
                  = dial :: CNow
                      :: CSetReadDeadline c
                           (Time_Add (time_Now w (h ++ [dial; CNow])) timeout)
                      :: rest ∧
                  List.filter is_deadline rest = []
            | Err _ => List.filter is_deadline (it_calls it) = []
            end)
         (calls s ++ [CBuild; CMarshalBinary req])
         (stunServerURLsToTestTCP cfg) its).
Proof.
  split_and!.
  - intros tr s.
    destruct (test_shape w cfg tr lg 0 s)
      as [(err & pre & cs & Hf & H)|(conn & req & raw & its & Hr & Hits & H)];
      rewrite H; cbn [snd].
    + rewrite new_calls_failed, List.filter_app, filter_closing, app_nil_r.
      inversion Hf; subst; try lia; unfold setup_calls; try destruct tr; simpl;
        by rewrite ?deadline_calls_0.
    + rewrite new_calls_completed, !List.filter_app. cbn [List.filter is_deadline].
      rewrite filter_closing, app_nil_r.
      erewrite filter_join; [| |exact Hits].
      * unfold setup_calls. destruct tr; simpl; by rewrite ?deadline_calls_0.
      * intros h url it HP. apply (no_deadline_without_timeout w tr h url).
        revert HP. apply (probe_property (deadline_armed w tr 0)).
        intros. apply body_deadline_armed.
  - intros timeout s conn Ht Hl.
    assert (Hopen : ∀ c, net_ListenPacket w (calls s ++ [CListenPacket "udp" "0.0.0.0:0"]) = Ok c →
              open_calls w UDP timeout (calls s) c
              = [CListenPacket "udp" "0.0.0.0:0"; CNow;
                 CSetDeadline conn
                   (Time_Add (time_Now w (calls s ++ [CListenPacket "udp" "0.0.0.0:0"; CNow]))
                      timeout)]).
    { intros c Hc. assert (c = conn) as -> by congruence.
      unfold open_calls, deadline_calls.
      rewrite bool_decide_eq_true_2 by done. by rewrite <- app_assoc. }
    destruct (test_shape w cfg UDP lg timeout s)
      as [(err & pre & cs & Hf & H)|(conn' & req & raw & its & Hr & Hits & H)];
      simpl in H; rewrite H; cbn [snd].
    + rewrite new_calls_failed.
      inversion Hf; subst; try congruence.
      * rewrite (Hopen _ H0). eexists; split; [reflexivity|]. apply filter_closing.
      * destruct H0 as [Hl' _]. rewrite (Hopen _ Hl'). eexists; split; [reflexivity|].
        simpl. by rewrite ?List.filter_app, ?filter_closing.
      * destruct H0 as [Hl' _]. unfold setup_calls. rewrite (Hopen _ Hl').
        eexists; split; [reflexivity|].
        simpl. by rewrite ?List.filter_app, ?filter_closing.
    + rewrite new_calls_completed. destruct Hr as ([Hl' _] & _).
      unfold setup_calls. rewrite (Hopen _ Hl').
      eexists; split; [reflexivity|]. cbn [app List.filter is_deadline].
      rewrite List.filter_app. cbn [List.filter is_deadline].
      rewrite filter_closing, app_nil_r.
      eapply filter_join; [|exact Hits].
      intros h url it. apply (probe_property (deadline_armed w UDP timeout)).
      intros. apply body_deadline_armed.
  - intros timeout s s' Ht Hrun.
    destruct (test_completed w cfg TCP lg timeout s s' Hrun)
      as (conn & req & raw & its & _ & Hits & ->).
    exists conn, req, raw, its. eexists. split_and!.
    + rewrite new_calls_completed. reflexivity.
    + simpl. apply filter_closing.
    + eapply iterations_impl; [|exact Hits]. intros h url it HP. split; [done|].
      apply (probe_property (deadline_armed w TCP timeout) _ _ _ _ _ _ _
               (body_deadline_armed w TCP lg timeout conn req raw)) in HP.
      unfold deadline_armed, read_deadline_calls in HP.
      rewrite bool_decide_eq_true_2 in HP by done.
      simpl. destruct (dialer_Dial w _); [|done].
      destruct HP as (rest & -> & Hrest). rewrite <- app_assoc. by exists rest.
Qed.

Lemma deadlines_witness :
  10 * Second > 0 ∧
  net_ListenPacket lab (calls init ++ [CListenPacket "udp" "0.0.0.0:0"]) = Ok 0%nat ∧
  ∃ rest,
    new_calls init (testUDP lab two_servers (lab_logger "udp") (10 * Second) init).2
    = CListenPacket "udp" "0.0.0.0:0" :: CNow
        :: CSetDeadline 0%nat
             (Time_Add
                (time_Now lab (calls init ++ [CListenPacket "udp" "0.0.0.0:0"; CNow]))
                (10 * Second))
        :: rest ∧
    List.filter is_deadline rest = [].
Proof.
  assert (H : 10 * Second > 0) by reflexivity.
  split; [exact H|]. split; [reflexivity|].
  exact (proj1 (proj2 (deadlines lab two_servers (lab_logger "udp")))
           (10 * Second) init 0%nat H eq_refl).
Defined.

(** ** Address families *)

Lemma resolve_udp4_ipv4 url looked a :
  resolve ["udp"; "udp4"; "udp6"] "udp4" url looked = Ok a → isIPv4 a = true.
Proof.
  unfold resolve. simpl. destruct looked as [ips|e]; [|done].
  unfold filterAddrList. simpl.
  destruct (filter (λ a, isIPv4 a = true) ips) as [|x kept] eqn:Hk; [done|].
  unfold forResolve. simpl.
  assert (Hall : Forall (λ a, isIPv4 a = true) (x :: kept)).
  { rewrite <- Hk. apply Forall_forall. intros y Hy.
    apply list_elem_of_In in Hy. by apply list_elem_of_filter in Hy as [? _]. }
  inversion Hall as [|?? Hx _]; subst.
  rewrite decide_True by done. simpl. by intros [= <-].
Qed.

Lemma resolve_udp4_ipv6_only url ips :
  Forall (λ a, isIPv4 a = false) ips →
  resolve ["udp"; "udp4"; "udp6"] "udp4" url (Ok ips)
  = Err "no suitable address found".
Proof.
  intros Hall. unfold resolve, filterAddrList. simpl.
  replace (filter (λ a, isIPv4 a = true) ips) with (@nil Addr); [done|].
  symmetry. induction Hall as [|x l Hx _ IH]; [done|].
  rewrite filter_cons, decide_False by congruence. done.
Qed.

Lemma resolve_tcp_any url ips :
  ips ≠ [] →
  ∃ a, a ∈ ips ∧ resolve ["tcp"; "tcp4"; "tcp6"] "tcp" url (Ok ips) = Ok a.
Proof.
  intros Hne. unfold resolve, filterAddrList. simpl.
  destruct ips as [|x ips]; [done|]. unfold forResolve.
  match goal with
  | |- context [list_find ?P ?l] => destruct (list_find P l) as [[i y]|] eqn:Hfind
  end.
  - exists y. split; [|done].
    apply list_find_Some in Hfind as (Hy & _). by eapply list_elem_of_lookup_2.
  - exists x. split; [|done]. by left.
Qed.

Lemma resolve_tcp_ipv6_only url a ips :
  Forall (λ a, isIPv4 a = false) (a :: ips) →
  resolve ["tcp"; "tcp4"; "tcp6"] "tcp" url (Ok (a :: ips)) = Ok a.
Proof.
  intros Hall. inversion Hall as [|?? Ha Hips]; subst.
  unfold resolve, filterAddrList, forResolve. simpl.
  destruct (has_char "[" url); simpl.
  - by rewrite decide_True by (by rewrite Ha).
  - rewrite decide_False by (by rewrite Ha).
    destruct (list_find _ ips) as [[i y]|] eqn:Hfind; [|done].
    apply list_find_Some in Hfind as (Hy & Hy' & _).
    apply list_elem_of_lookup_2 in Hy.
    by rewrite (proj1 (Forall_forall _ _) Hips y (proj1 (list_elem_of_In _ _) Hy)) in Hy'.
Qed.

Lemma body_resolved_by w tr lg timeout conn req raw url s :
  ∃ c it, body w tr lg timeout conn req raw url s = (c, frame s it) ∧
          (∀ e, c ≠ Return e) ∧ resolved_by w tr timeout (calls s) url it.
Proof.
  destruct tr; unfold_probe; exec; framed.
  all: intros r Hr conn' Hconn str; cbn [it_recs] in Hr; invert_elem Hr.
  all: unfold resolved, read_deadline_calls, dialer_of in *.
  all: rewrite <- ?app_assoc in *; cbn [app] in *.
  all: repeat match goal with
              | H : bool_decide _ = _ |- _ => rewrite ?H in *; clear H
              end.
  all: try match goal with
           | H1 : dialer_Dial _ ?h = Ok ?x, H2 : dialer_Dial _ ?h = Ok ?y |- _ =>
               assert (y = x) as -> by congruence
           end.
  all: cbn [app]; rewrite <- ?app_assoc; cbn [app].
  all: match goal with H : resolve _ _ _ _ = _ |- _ => rewrite H end.
  all: simpl; split;
    [ intros [= <-]; eauto
    | intros (? & [= <-] & ->); done ].
Qed.

(** C8, as amended: the UDP loop resolves its endpoints on network "udp4",
    which keeps IPv4 addresses only, so a UDP record has a resolved
    address only if it is an IPv4 one and an endpoint with IPv6 addresses
    only fails to resolve; the TCP loop resolves on network "tcp", which
    keeps every address, so an endpoint with IPv6 addresses only resolves
    to the first of them. *)
Theorem resolution_families w :
  (∀ lg timeout conn req raw h url it r str,
     probe w UDP lg timeout conn req raw h url it → r ∈ it_recs it →
     (STUNServerAddr r = Some str ↔
      ∃ a, resolve ["udp"; "udp4"; "udp6"] "udp4" url
             (net_lookup w (h ++ [CResolveUDPAddr "udp4" url])) = Ok a ∧
           str = Addr_String w a)) ∧
  (∀ lg timeout conn req raw h url it r c str,
     probe w TCP lg timeout conn req raw h url it → r ∈ it_recs it →
     let dial := CDial (dialer_of timeout) "tcp" url in
     dialer_Dial w (h ++ [dial]) = Ok c →
     (STUNServerAddr r = Some str ↔
      ∃ a, resolve ["tcp"; "tcp4"; "tcp6"] "tcp" url
             (net_lookup w
                (h ++ dial :: read_deadline_calls w timeout c (h ++ [dial])
                   ++ [CResolveTCPAddr "tcp" url])) = Ok a ∧
           str = Addr_String w a)) ∧
  (∀ url looked a,
     resolve ["udp"; "udp4"; "udp6"] "udp4" url looked = Ok a → isIPv4 a = true) ∧
  (∀ url ips,
     Forall (λ a, isIPv4 a = false) ips →
     resolve ["udp"; "udp4"; "udp6"] "udp4" url (Ok ips)
     = Err "no suitable address found") ∧
  (∀ url ips,
     ips ≠ [] →
     ∃ a, a ∈ ips ∧ resolve ["tcp"; "tcp4"; "tcp6"] "tcp" url (Ok ips) = Ok a) ∧
  (∀ url a ips,
     Forall (λ a, isIPv4 a = false) (a :: ips) →
     resolve ["tcp"; "tcp4"; "tcp6"] "tcp" url (Ok (a :: ips)) = Ok a).
Proof.
  split_and!.
  - intros lg timeout conn req raw h url it r str HP Hr.
    apply (probe_property (resolved_by w UDP timeout) _ _ _ _ _ _ _
             (body_resolved_by w UDP lg timeout conn req raw)) in HP.
    exact (HP r Hr 0%nat I str).
  - intros lg timeout conn req raw h url it r c str HP Hr dial Hdial.
    apply (probe_property (resolved_by w TCP timeout) _ _ _ _ _ _ _
             (body_resolved_by w TCP lg timeout conn req raw)) in HP.
    exact (HP r Hr c Hdial str).
  - apply resolve_udp4_ipv4.
  - apply resolve_udp4_ipv6_only.
  - apply resolve_tcp_any.
  - apply resolve_tcp_ipv6_only.
Qed.

Lemma resolution_families_witness :
  Forall (λ a, isIPv4 a = false) [{| addr_IP := IPv6 1; addr_Port := 3478 |}] ∧
  resolve ["udp"; "udp4"; "udp6"] "udp4" "stun.example.com:3478"
    (Ok [{| addr_IP := IPv6 1; addr_Port := 3478 |}])
  = Err "no suitable address found" ∧
  resolve ["tcp"; "tcp4"; "tcp6"] "tcp" "stun.example.com:3478"
    (Ok [{| addr_IP := IPv6 1; addr_Port := 3478 |}])
  = Ok {| addr_IP := IPv6 1; addr_Port := 3478 |}.
Proof.
  assert (H : Forall (λ a, isIPv4 a = false)
                [{| addr_IP := IPv6 1; addr_Port := 3478 |}])
    by (repeat constructor).
  split; [exact H|]. split.
  - exact (proj1 (proj2 (proj2 (proj2 (resolution_families ipv6_only))))
             "stun.example.com:3478" _ H).
  - exact (proj2 (proj2 (proj2 (proj2 (proj2 (resolution_families ipv6_only)))))
             "stun.example.com:3478" _ _ H).
Defined.

(** C8, as stated, fails for an endpoint that has an IPv6 address only:
    the UDP run does not resolve it and its record has the queried URL
    only, while the TCP run resolves it and completes the exchange. *)
Lemma ipv6_only_endpoint_differs :
  net_lookup ipv6_only [] = Ok [{| addr_IP := IPv6 1; addr_Port := 3478 |}] ∧
  batch (testUDP ipv6_only one_server (lab_logger "udp") (10 * Second) init).2
  = [{| STUNServerURL := "stun.example.com:3478"; STUNServerAddr := None;
        BindResponseAddr := None; TimeToBindResponse := None |}] ∧
  batch (testTCP ipv6_only one_server (lab_logger "tcp") (10 * Second) init).2
  = [{| STUNServerURL := "stun.example.com:3478";
        STUNServerAddr := Some "[2001:db8::1]:3478";
        BindResponseAddr := Some "203.0.113.5:54321";
        TimeToBindResponse := Some 5 |}].
Proof. vm_compute. done. Qed.

(** ** The receive buffer *)

Lemma copy_into_make (n : nat) (data : bytes) :
  copy_into (make_bytes n) data = take n data ++ replicate (n - length data) x00.
Proof.
  unfold copy_into, make_bytes. by rewrite length_replicate, drop_replicate.
Qed.

Lemma filled_length (data : bytes) : length (filled data) = 2000%nat.
Proof.
  unfold filled. rewrite length_app, length_take, length_replicate. lia.
Qed.

Lemma body_decodes_whole_buffer w tr lg timeout conn req raw url s :
  ∃ c it, body w tr lg timeout conn req raw url s = (c, frame s it) ∧
          (∀ e, c ≠ Return e) ∧ decodes_whole_buffer w tr (calls s) it.
Proof.
  destruct tr; unfold_probe; exec; framed.
  all: intros b' Hin; cbn [it_calls] in *; invert_elem Hin.
  all: change (length (make_bytes 2000)) with 2000%nat in *.
  all: rewrite <- ?app_assoc in *; cbn [app] in *.
  all: rewrite copy_into_make; split; [apply filled_length|].
  all: find_read.
  all: unfold received; cbn [take app]; rewrite <- ?app_assoc; cbn [app].
  all: match goal with
       | H : conn_ReadFrom _ _ = _ |- _ => by rewrite H
       | H : conn_Read _ _ = _ |- _ => by rewrite H
       end.
Qed.

(** ** What the loops do not look at *)

Lemma range_ext {A} (f g : A → M unit) (l : list A) (s : State) :
  (∀ x s, f x s = g x s) → range l f s = range l g s.
Proof.
  intros Hfg. revert s. induction l as [|x l IH]; intros s; [done|].
  simpl. rewrite Hfg. destruct (g x s) as [[?| |?] ?]; auto.
Qed.

Lemma run_deferred_ext w w' cs s :
  (∀ h, conn_Close w' h = conn_Close w h) →
  run_deferred w' cs s = run_deferred w cs s.
Proof.
  intros Hclose. revert s. induction cs as [|c cs IH]; intros s; [done|].
  simpl. unfold Close_unchecked. exec. by rewrite Hclose, IH.
Qed.

Lemma func_ext w w' (b b' : M unit) s :
  (∀ s, b' s = b s) → (∀ h, conn_Close w' h = conn_Close w h) →
  func w' b' s = func w b s.
Proof.
  intros Hb Hclose. unfold func. rewrite Hb.
  destruct (b _) as [c s1]. by rewrite (run_deferred_ext w w').
Qed.

Lemma body_with_count g w tr lg timeout conn req raw url s :
  body (with_count g w) tr lg timeout conn req raw url s
  = body w tr lg timeout conn req raw url s.
Proof. destruct tr; unfold_probe; unfold_world; exec; reflexivity. Qed.

Lemma body_with_source g w tr lg timeout conn req raw url s :
  body (with_source g w) tr lg timeout conn req raw url s
  = body w tr lg timeout conn req raw url s.
Proof. destruct tr; unfold_probe; unfold_world; exec; reflexivity. Qed.

Lemma test_with_count g w cfg tr lg timeout s :
  test (with_count g w) cfg tr lg timeout s = test w cfg tr lg timeout s.
Proof.
  destruct tr; unfold test, testUDP, testTCP; (apply func_ext; [|done]); intros s0.
  - unfold testUDP_body, ListenPacket, SetDeadline, Now, Build, MarshalBinary.
    unfold_world. exec; try reflexivity.
    all: erewrite (range_ext (probeUDP (with_count g w) _ _ _ _)); [reflexivity|].
    all: intros; apply (body_with_count g w UDP lg timeout).
  - unfold testTCP_body, Build, MarshalBinary.
    unfold_world. exec; try reflexivity.
    all: erewrite (range_ext (probeTCP (with_count g w) _ _ _ _ _)); [reflexivity|].
    all: intros; apply (body_with_count g w TCP lg timeout 0%nat).
Qed.

(** C9: in every completed run of either transport, an iteration whose
    server responded (it came to its read and the read reported no error)
    hands the buffer of that read to the decoder, once and right after the
    read, and an iteration without a response decodes nothing; each decode
    is of a buffer of 2000 bytes, the one the preceding read was given,
    holding the bytes of that read followed by the zeros the buffer was
    made with; and the count a read reports is never looked at: replacing
    the counts by any others changes neither the result nor the calls nor
    the records of a run. *)
Theorem decoder_gets_whole_buffer w cfg tr lg timeout s :
  (∀ s',
     test w cfg tr lg timeout s = (None, s') →
     ∃ conn req raw its,
       (setup_calls w tr timeout (calls s) conn req ++ concat (it_calls <$> its))
         `prefix_of` new_calls s s' ∧
       iterations
         (λ h url it,
            probe w tr lg timeout conn req raw h url it ∧
            decodes_response w tr timeout conn raw h url it ∧
            ∀ b, CDecode b ∈ it_calls it →
                 length b = 2000%nat ∧
                 ∃ i rd,
                   it_calls it !! i = Some rd ∧ read_size rd = Some 2000%nat ∧
                   it_calls it !! S i = Some (CDecode b) ∧
                   b = take 2000 (received w tr (h ++ take (S i) (it_calls it)))
                       ++ replicate
                            (2000 - length (received w tr
                                              (h ++ take (S i) (it_calls it))))
                            x00)
         (calls s ++ setup_calls w tr timeout (calls s) conn req)
         (urls cfg tr) its) ∧
  (∀ g, test (with_count g w) cfg tr lg timeout s = test w cfg tr lg timeout s).
Proof.
  split; [|intros; apply test_with_count].
  intros s' Hrun.
  destruct (test_completed w cfg tr lg timeout s s' Hrun)
    as (conn & req & raw & its & _ & Hits & ->).
  exists conn, req, raw, its. split.
  - rewrite new_calls_completed, iters_join_calls.
    rewrite (app_assoc (setup_calls _ _ _ _ _ _)). by eexists.
  - eapply iterations_impl; [|exact Hits]. intros h url it HP.
    split_and!; [done| |].
    + by apply probe_steps in HP as (_ & _ & HP & _).
    + revert HP. apply (probe_property (λ h _, decodes_whole_buffer w tr h)).
      intros. apply body_decodes_whole_buffer.
Qed.

Lemma decoder_gets_whole_buffer_witness :
  let s' := (test lab two_servers UDP (lab_logger "udp") (10 * Second) init).2 in
  test lab two_servers UDP (lab_logger "udp") (10 * Second) init = (None, s') ∧
  ∃ conn req raw its,
    (setup_calls lab UDP (10 * Second) (calls init) conn req
       ++ concat (it_calls <$> its))
      `prefix_of` new_calls init s' ∧
    iterations
      (λ h url it,
         probe lab UDP (lab_logger "udp") (10 * Second) conn req raw h url it ∧
         decodes_response lab UDP (10 * Second) conn raw h url it ∧
         ∀ b, CDecode b ∈ it_calls it →
              length b = 2000%nat ∧
              ∃ i rd,
                it_calls it !! i = Some rd ∧ read_size rd = Some 2000%nat ∧
                it_calls it !! S i = Some (CDecode b) ∧
                b = take 2000 (received lab UDP (h ++ take (S i) (it_calls it)))
                    ++ replicate
                         (2000 - length (received lab UDP
                                           (h ++ take (S i) (it_calls it))))
                         x00)
      (calls init ++ setup_calls lab UDP (10 * Second) (calls init) conn req)
      (urls two_servers UDP) its.
Proof.
  assert (H : test lab two_servers UDP (lab_logger "udp") (10 * Second) init
              = (None, (test lab two_servers UDP (lab_logger "udp")
                          (10 * Second) init).2))
    by (vm_compute; reflexivity).
  split; [exact H|].
  exact (proj1 (decoder_gets_whole_buffer lab two_servers UDP (lab_logger "udp")
                  (10 * Second) init) _ H).
Defined.

(** The decoder is given the 13 bytes received and 1987 zeros after
    them. *)
Example testUDP_decodes_zero_tail :
  List.filter (λ c, match c with CDecode _ => true | _ => false end)
    (calls (testUDP lab one_server (lab_logger "udp") (10 * Second) init).2)
  = [CDecode ((x02 :: TransactionID toy_request) ++ replicate 1987 x00)].
Proof. vm_compute. reflexivity. Qed.

(** C10: the UDP run never looks at the source address of a datagram:
    whatever addresses the datagrams are said to come from, the run
    returns the same result, makes the same calls and leaves the same
    records, so it takes any datagram that arrives as the response of the
    server it is probing. *)
Theorem source_address_ignored w g cfg lg timeout s :
  testUDP (with_source g w) cfg lg timeout s = testUDP w cfg lg timeout s.
Proof.
  unfold testUDP; (apply func_ext; [|done]); intros s0.
  unfold testUDP_body, ListenPacket, SetDeadline, Now, Build, MarshalBinary.
  unfold_world. exec; try reflexivity.
  all: erewrite (range_ext (probeUDP (with_source g w) _ _ _ _)); [reflexivity|].
  all: intros; apply (body_with_source g w UDP lg timeout).
Qed.

(** A datagram from another sender fills the record of the server being
    probed. *)
Example testUDP_accepts_any_sender :
  let stranger := {| addr_IP := IPv4 167772161; addr_Port := 9 |} in
  conn_ReadFrom (with_source (λ _, stranger) lab) []
  = (x02 :: TransactionID toy_request, 13, stranger, None) ∧
  batch (testUDP (with_source (λ _, stranger) lab) one_server
           (lab_logger "udp") (10 * Second) init).2
  = [{| STUNServerURL := "stun.example.com:3478";
        STUNServerAddr := Some "192.0.2.1:3478";
        BindResponseAddr := Some "203.0.113.5:54321";
        TimeToBindResponse := Some 5 |}].
Proof. vm_compute. done. Qed.

(** ** Beyond the claims: records, releases and the report *)

(** X1: a completed UDP run leaves one record per configured server, in the
    order of the configuration, each under the URL of its server. *)
Theorem testUDP_reports_every_server w cfg lg timeout s s' :
  testUDP w cfg lg timeout s = (None, s') →
  STUNServerURL <$> batch s' = stunServerURLsToTestUDP cfg.
Proof.
  intros Hrun.
  destruct (test_completed w cfg UDP lg timeout s s' Hrun)
    as (conn & req & raw & its & _ & Hits & ->).
  rewrite batch_completed.
  exact (iterations_records_UDP w lg timeout conn req raw _ _ its Hits).
Qed.

Lemma testUDP_reports_every_server_witness :
  let s' := (testUDP unresolved two_servers (lab_logger "udp") (10 * Second) init).2 in
  testUDP unresolved two_servers (lab_logger "udp") (10 * Second) init = (None, s') ∧
  STUNServerURL <$> batch s' = stunServerURLsToTestUDP two_servers.
Proof.
  assert (H : testUDP unresolved two_servers (lab_logger "udp") (10 * Second) init
              = (None, (testUDP unresolved two_servers (lab_logger "udp")
                          (10 * Second) init).2))
    by (vm_compute; reflexivity).
  split; [exact H|].
  exact (testUDP_reports_every_server unresolved two_servers (lab_logger "udp")
           (10 * Second) init _ H).
Defined.

Lemma body_defers_dialed w tr lg timeout conn req raw url s :
  ∃ c it, body w tr lg timeout conn req raw url s = (c, frame s it) ∧
          (∀ e, c ≠ Return e) ∧ defers_dialed w tr timeout (calls s) url it.
Proof.
  destruct tr; unfold_probe; exec; framed; unfold defers_dialed, dialed, dialer_of;
    cbn [it_calls it_defers]; try done.
  all: repeat match goal with H : dialer_Dial _ _ = _ |- _ => rewrite H end.
  all: done.
Qed.

Lemma probe_defers_dialed w tr lg timeout conn req raw h url it :
  probe w tr lg timeout conn req raw h url it → defers_dialed w tr timeout h url it.
Proof.
  apply (probe_property (defers_dialed w tr timeout)). intros.
  apply body_defers_dialed.
Qed.

Lemma filter_close_closing w h cs :
  List.filter is_close (closing w h cs) = CClose <$> cs.
Proof.
  revert h. induction cs as [|c cs IH]; intros h; simpl; [done|]. by rewrite IH.
Qed.

Lemma filter_report_closing w h cs : List.filter is_report (closing w h cs) = [].
Proof. revert h. induction cs as [|c cs IH]; intros h; simpl; [done|apply IH]. Qed.

Lemma iterations_defers_UDP w lg timeout conn req raw h l its :
  iterations (probe w UDP lg timeout conn req raw) h l its →
  it_defers (iters_join its) = [].
Proof.
  induction 1 as [|h x l it its HP _ IH]; [done|].
  rewrite iters_join_cons. cbn [it_defers]. rewrite IH.
  by destruct (probe_defers_dialed _ _ _ _ _ _ _ _ _ _ HP) as (-> & _).
Qed.

Lemma concat_reverse_short {A} (ls : list (list A)) :
  Forall (λ l, (length l ≤ 1)%nat) ls → concat (reverse ls) = reverse (concat ls).
Proof.
  induction 1 as [|l ls Hl _ IH]; [done|].
  rewrite reverse_cons, concat_app, IH. simpl. rewrite app_nil_r, reverse_app.
  f_equal. destruct l as [|a [|b l]]; simpl in *; [done|done|lia].
Qed.

(** X2: the UDP socket is released on every path: when [ListenPacket]
    succeeds, whether the run then fails in its setup or completes, the
    last two calls of the run are the close of the socket and the handing
    of the close's error to [UncheckedError], and nothing is closed before;
    when [ListenPacket] fails, nothing is closed. *)
Theorem testUDP_closes_socket w cfg lg timeout s :
  match net_ListenPacket w (calls s ++ [CListenPacket "udp" "0.0.0.0:0"]) with
  | Ok conn =>
      ∃ pre,
        new_calls s (testUDP w cfg lg timeout s).2
        = pre ++ [CClose conn;
                  CUncheckedError (conn_Close w (calls s ++ pre ++ [CClose conn]))] ∧
        List.filter is_close pre = []
  | Err _ => List.filter is_close (new_calls s (testUDP w cfg lg timeout s).2) = []
  end.
Proof.
  assert (Hopen : ∀ c, List.filter is_close (open_calls w UDP timeout (calls s) c) = []).
  { intros c. unfold open_calls, deadline_calls. by destruct (bool_decide _). }
  destruct (test_shape w cfg UDP lg timeout s)
    as [(err & pre & cs & Hf & H)|(conn & req & raw & its & Hr & Hits & H)];
    simpl in H; rewrite H; cbn [snd].
  - rewrite new_calls_failed. inversion Hf; subst.
    + by rewrite H0.
    + rewrite H0. exists (open_calls w UDP timeout (calls s) conn).
      split; [cbn [closing]; by rewrite <- ?app_assoc|apply Hopen].
    + destruct H0 as [-> _]. exists (open_calls w UDP timeout (calls s) conn ++ [CBuild]).
      split; [cbn [closing owned]; by rewrite <- ?app_assoc|].
      by rewrite List.filter_app, Hopen.
    + destruct H0 as [-> _]. exists (setup_calls w UDP timeout (calls s) conn req).
      split; [cbn [closing owned]; by rewrite <- ?app_assoc|].
      unfold setup_calls. by rewrite List.filter_app, Hopen.
  - rewrite new_calls_completed. destruct Hr as ([-> _] & _).
    rewrite (iterations_defers_UDP _ _ _ _ _ _ _ _ _ Hits). cbn [app closing].
    exists (setup_calls w UDP timeout (calls s) conn req
              ++ it_calls (iters_join its)
              ++ [CLogSTUNResults lg (it_recs (iters_join its))]).
    split; [by rewrite <- !app_assoc|].
    unfold setup_calls. rewrite !List.filter_app, Hopen. cbn [List.filter is_close app].
    rewrite app_nil_r. eapply filter_join; [|exact Hits].
    intros h url it HP. by destruct (probe_defers_dialed _ _ _ _ _ _ _ _ _ _ HP) as (_ & ? & _).
Qed.

(** X3: in a completed TCP run, no connection is closed before the
    report; after it, every connection a dial returned is closed, once,
    the last dialed first; an iteration whose dial failed has nothing to
    close. *)
Theorem testTCP_closes_every_connection w cfg lg timeout s s' :
  testTCP w cfg lg timeout s = (None, s') →
  ∃ conn req raw its pre post,
    iterations
      (λ h url it, probe w TCP lg timeout conn req raw h url it ∧
                   it_defers it = dialed w TCP timeout h url)
      (calls s ++ [CBuild; CMarshalBinary req])
      (stunServerURLsToTestTCP cfg) its ∧
    new_calls s s' = pre ++ CLogSTUNResults lg (batch s') :: post ∧
    List.filter is_close pre = [] ∧
    List.filter is_close post = CClose <$> reverse (concat (it_defers <$> its)).
Proof.
  intros Hrun.
  destruct (test_completed w cfg TCP lg timeout s s' Hrun)
    as (conn & req & raw & its & _ & Hits & ->).
  exists conn, req, raw, its. eexists _, _. split_and!.
  - eapply iterations_impl; [|exact Hits]. intros h url it HP. split; [done|].
    by destruct (probe_defers_dialed _ _ _ _ _ _ _ _ _ _ HP) as (? & _).
  - rewrite new_calls_completed, batch_completed, app_assoc. reflexivity.
  - rewrite List.filter_app. cbn [setup_calls open_calls app List.filter is_close].
    eapply filter_join; [|exact Hits].
    intros h url it HP. by destruct (probe_defers_dialed _ _ _ _ _ _ _ _ _ _ HP) as (_ & ? & _).
  - rewrite filter_close_closing. cbn [owned]. rewrite app_nil_r. f_equal.
    unfold iters_join. cbn [it_defers]. apply concat_reverse_short.
    eapply Forall_fmap, iterations_Forall; [|exact Hits].
    intros h url it HP. destruct (probe_defers_dialed _ _ _ _ _ _ _ _ _ _ HP) as (Hd & _).
    simpl. rewrite Hd. simpl. by destruct (dialer_Dial w _); simpl; lia.
Qed.

Lemma testTCP_closes_every_connection_witness :
  let s' := (testTCP lab two_servers (lab_logger "tcp") (10 * Second) init).2 in
  testTCP lab two_servers (lab_logger "tcp") (10 * Second) init = (None, s') ∧
  ∃ conn req raw its pre post,
    iterations
      (λ h url it,
         probe lab TCP (lab_logger "tcp") (10 * Second) conn req raw h url it ∧
         it_defers it = dialed lab TCP (10 * Second) h url)
      (calls init ++ [CBuild; CMarshalBinary req])
      (stunServerURLsToTestTCP two_servers) its ∧
    new_calls init s' = pre ++ CLogSTUNResults (lab_logger "tcp") (batch s') :: post ∧
    List.filter is_close pre = [] ∧
    List.filter is_close post = CClose <$> reverse (concat (it_defers <$> its)).
Proof.
  assert (H : testTCP lab two_servers (lab_logger "tcp") (10 * Second) init
              = (None, (testTCP lab two_servers (lab_logger "tcp")
                          (10 * Second) init).2))
    by (vm_compute; reflexivity).
  split; [exact H|].
  exact (testTCP_closes_every_connection lab two_servers (lab_logger "tcp")
           (10 * Second) init _ H).
Defined.

(** X4: a run reports exactly when it returns no error: a run that fails
    in its setup never calls [logSTUNResults]; a run that returns nil
    calls it once, with its own logger and with the records of its final
    batch. *)
Theorem report_once w cfg tr lg timeout s :
  let r := test w cfg tr lg timeout s in
  List.filter is_report (new_calls s r.2)
  = match r.1 with
    | None => [CLogSTUNResults lg (batch r.2)]
    | Some _ => []
    end.
Proof.
  assert (Hopen : ∀ c, List.filter is_report (open_calls w tr timeout (calls s) c) = []).
  { intros c. destruct tr; [|done]. unfold open_calls, deadline_calls.
    by destruct (bool_decide _). }
  cbv zeta.
  destruct (test_shape w cfg tr lg timeout s)
    as [(err & pre & cs & Hf & H)|(conn & req & raw & its & Hr & Hits & H)];
    rewrite H; cbn [fst snd].
  - rewrite new_calls_failed, List.filter_app, filter_report_closing, app_nil_r.
    inversion Hf; subst; try done; unfold setup_calls;
      by rewrite ?List.filter_app, Hopen.
  - rewrite new_calls_completed, batch_completed. unfold setup_calls.
    rewrite !List.filter_app, Hopen. cbn [List.filter is_report app].
    rewrite filter_report_closing.
    erewrite filter_join; [done| |exact Hits].
    intros h url it HP. by destruct (probe_defers_dialed _ _ _ _ _ _ _ _ _ _ HP) as (_ & _ & ?).
Qed.

(** ** Beyond the claims: what a close reports *)

Lemma body_with_conn_Close g w tr lg timeout conn req raw url s :
  body (with_conn_Close g w) tr lg timeout conn req raw url s
  = body w tr lg timeout conn req raw url s.
Proof. destruct tr; unfold_probe; unfold_close_world; exec; reflexivity. Qed.

Lemma forget_closing w w' h h' cs :
  forget_close_error <$> closing w' h' cs = forget_close_error <$> closing w h cs.
Proof.
  revert h h'. induction cs as [|c cs IH]; intros h h'; [done|].
  simpl. f_equal. f_equal. apply IH.
Qed.

(** X5: the error of a close is never propagated and changes nothing a run
    leaves: with any other errors for the closes, a run of either
    transport returns the same result with the same batch, and makes the
    same calls but for the error it hands to [UncheckedError]. *)
Theorem close_errors_dropped g w cfg tr lg timeout s :
  let r' := test (with_conn_Close g w) cfg tr lg timeout s in
  let r := test w cfg tr lg timeout s in
  r'.1 = r.1 ∧ batch r'.2 = batch r.2 ∧
  forget_close_error <$> calls r'.2 = forget_close_error <$> calls r.2.
Proof.
  cbv zeta.
  assert (Hfunc : ∀ b b' : M unit, (∀ s0, b' s0 = b s0) →
            let r' := func (with_conn_Close g w) b' s in
            let r := func w b s in
            r'.1 = r.1 ∧ batch r'.2 = batch r.2 ∧
            forget_close_error <$> calls r'.2 = forget_close_error <$> calls r.2).
  { intros b b' Hb. unfold func. rewrite Hb.
    destruct (b _) as [c s1]. rewrite !run_deferred_closing.
    unfold set_calls, set_deferred, batch. cbn [fst snd calls heap stunResponses].
    split_and!; [done|done|]. rewrite !fmap_app. f_equal. apply forget_closing. }
  destruct tr; unfold test, testUDP, testTCP; apply Hfunc; intros s0.
  - unfold testUDP_body, ListenPacket, SetDeadline, Now, Build, MarshalBinary.
    unfold_close_world. exec; try reflexivity.
    all: erewrite (range_ext (probeUDP (with_conn_Close g w) _ _ _ _)); [reflexivity|].
    all: intros; apply (body_with_conn_Close g w UDP lg timeout).
  - unfold testTCP_body, Build, MarshalBinary.
    unfold_close_world. exec; try reflexivity.
    all: erewrite (range_ext (probeTCP (with_conn_Close g w) _ _ _ _ _)); [reflexivity|].
    all: intros; apply (body_with_conn_Close g w TCP lg timeout 0%nat).
Qed.

(** ** Beyond the claims: the steps of one exchange *)

(** What holds along every path of the body holds of every iteration of a
    completed run. *)
Lemma completed_run (Q : Conn → Message → bytes → list Call → string → Iter → Prop)
    w cfg tr lg timeout s s' :
  (∀ conn req raw url s0, ∃ c it,
      body w tr lg timeout conn req raw url s0 = (c, frame s0 it) ∧
      (∀ e, c ≠ Return e) ∧ Q conn req raw (calls s0) url it) →
  test w cfg tr lg timeout s = (None, s') →
  every_iteration w cfg tr lg timeout s s' Q.
Proof.
  intros HQ Hrun.
  destruct (test_completed w cfg tr lg timeout s s' Hrun)
    as (conn & req & raw & its & Hr & Hits & ->).
  exists conn, req, raw, its. split_and!; [done| |].
  - rewrite new_calls_completed, iters_join_calls.
    rewrite (app_assoc (setup_calls _ _ _ _ _ _)). by eexists.
  - eapply iterations_impl; [|exact Hits]. intros h url it HP. split; [done|].
    revert HP. apply (probe_property (Q conn req raw)). intros. apply HQ.
Qed.

(** X6: in a completed run of either transport, an iteration reads
    exactly when its send went through whole: when it came to its send
    and the send reported no error and as many bytes as the request has,
    it makes one read, into a buffer of 2000 bytes and right after the
    send; in every other case (no connection, no address, a failed or a
    short write) it makes no read at all. *)
Theorem read_follows_complete_write w cfg tr lg timeout s s' :
  test w cfg tr lg timeout s = (None, s') →
  every_iteration w cfg tr lg timeout s s'
    (λ conn _ raw h url it, reads_after_write w tr timeout conn raw h url it).
Proof.
  apply (completed_run
           (λ conn _ raw h url it, reads_after_write w tr timeout conn raw h url it)).
  intros conn req raw url s0.
  destruct (body_steps w tr lg timeout conn req raw url s0)
    as (c & it & H & Hc & _ & Hread & _).
  by exists c, it.
Qed.

Lemma read_follows_complete_write_witness :
  let s' := (test lab two_servers TCP (lab_logger "tcp") (10 * Second) init).2 in
  test lab two_servers TCP (lab_logger "tcp") (10 * Second) init = (None, s') ∧
  every_iteration lab two_servers TCP (lab_logger "tcp") (10 * Second) init s'
    (λ conn _ raw h url it, reads_after_write lab TCP (10 * Second) conn raw h url it).
Proof.
  assert (H : test lab two_servers TCP (lab_logger "tcp") (10 * Second) init
              = (None, (test lab two_servers TCP (lab_logger "tcp")
                          (10 * Second) init).2))
    by (vm_compute; reflexivity).
  split; [exact H|].
  exact (read_follows_complete_write lab two_servers TCP (lab_logger "tcp")
           (10 * Second) init _ H).
Defined.

Lemma body_duration_measured w tr lg timeout conn req raw url s :
  ∃ c it, body w tr lg timeout conn req raw url s = (c, frame s it) ∧
          (∀ e, c ≠ Return e) ∧ duration_measured w (calls s) it.
Proof.
  destruct tr; unfold_probe; exec; framed.
  all: intros r d Hr Hd; cbn [it_recs it_calls] in *; invert_elem Hr.
  all: cbn [TimeToBindResponse] in Hd; try discriminate Hd.
  all: find_start.
  all: simpl; rewrite <- ?app_assoc; simpl.
  all: simpl in Hd; congruence.
Qed.

(** X7: in a completed run of either transport, the duration of a record
    that has one is the time between two readings of the clock, cut to the
    range of a duration: the reading taken just before the send of its
    iteration, and the reading taken as the last call of the iteration,
    after the response was read, decoded and checked. *)
Theorem duration_is_clock_difference w cfg tr lg timeout s s' :
  test w cfg tr lg timeout s = (None, s') →
  every_iteration w cfg tr lg timeout s s'
    (λ _ _ _ h _ it, duration_measured w h it).
Proof.
  apply (completed_run (λ _ _ _ h _ it, duration_measured w h it)).
  intros. apply body_duration_measured.
Qed.

Lemma duration_is_clock_difference_witness :
  let s' := (test lab two_servers UDP (lab_logger "udp") (10 * Second) init).2 in
  test lab two_servers UDP (lab_logger "udp") (10 * Second) init = (None, s') ∧
  every_iteration lab two_servers UDP (lab_logger "udp") (10 * Second) init s'
    (λ _ _ _ h _ it, duration_measured lab h it).
Proof.
  assert (H : test lab two_servers UDP (lab_logger "udp") (10 * Second) init
              = (None, (test lab two_servers UDP (lab_logger "udp")
                          (10 * Second) init).2))
    by (vm_compute; reflexivity).
  split; [exact H|].
  exact (duration_is_clock_difference lab two_servers UDP (lab_logger "udp")
           (10 * Second) init _ H).
Defined.

(** ** Beyond the claims: connections and transports *)

Lemma body_connections w tr lg timeout conn req raw url s :
  ∃ c it, body w tr lg timeout conn req raw url s = (c, frame s it) ∧
          (∀ e, c ≠ Return e) ∧
          on_own_connection w tr timeout conn (calls s) url it ∧
          List.filter (other_transport tr) (it_calls it) = [] ∧
          (tr = UDP → sends_to_resolved w (calls s) url it).
Proof.
  destruct tr; unfold_probe; exec; framed.
  all: split_and!; [|reflexivity|try done].
  all: try (intros _ k b' a' Hin; cbn [it_calls] in Hin; invert_elem Hin; assumption).
  all: intros c0 k Hin Hk; cbn [it_calls] in Hin; invert_elem Hin;
         cbn [conn_of] in Hk; simplify_eq; try reflexivity.
  all: unfold dialer_of; assumption.
Qed.

(** X8: in a completed run, every call an iteration makes on a connection
    (deadline, send, read, close) is on its own connection: in the UDP
    loop the one socket the run opened, in the TCP loop the connection
    the dial of that iteration returned, and no connection of another
    iteration. *)
Theorem calls_on_own_connection w cfg tr lg timeout s s' :
  test w cfg tr lg timeout s = (None, s') →
  every_iteration w cfg tr lg timeout s s'
    (λ conn _ _ h url it, on_own_connection w tr timeout conn h url it).
Proof.
  apply (completed_run
           (λ conn _ _ h url it, on_own_connection w tr timeout conn h url it)).
  intros conn req raw url s0.
  destruct (body_connections w tr lg timeout conn req raw url s0)
    as (c & it & H & Hc & Hown & _).
  by exists c, it.
Qed.

Lemma calls_on_own_connection_witness :
  let s' := (test lab two_servers TCP (lab_logger "tcp") (10 * Second) init).2 in
  test lab two_servers TCP (lab_logger "tcp") (10 * Second) init = (None, s') ∧
  every_iteration lab two_servers TCP (lab_logger "tcp") (10 * Second) init s'
    (λ conn _ _ h url it, on_own_connection lab TCP (10 * Second) conn h url it).
Proof.
  assert (H : test lab two_servers TCP (lab_logger "tcp") (10 * Second) init
              = (None, (test lab two_servers TCP (lab_logger "tcp")
                          (10 * Second) init).2))
    by (vm_compute; reflexivity).
  split; [exact H|].
  exact (calls_on_own_connection lab two_servers TCP (lab_logger "tcp")
           (10 * Second) init _ H).
Defined.

(** X9: in a completed UDP run, every datagram is sent to the address
    that the resolver gave, on network "udp4", for the server of its
    iteration: the request never goes to the address of another
    server. *)
Theorem udp_sends_to_resolved_address w cfg lg timeout s s' :
  testUDP w cfg lg timeout s = (None, s') →
  every_iteration w cfg UDP lg timeout s s'
    (λ _ _ _ h url it, sends_to_resolved w h url it).
Proof.
  intros Hrun.
  refine (completed_run (λ _ _ _ h url it, sends_to_resolved w h url it)
            w cfg UDP lg timeout s s' _ Hrun).
  intros conn req raw url s0.
  destruct (body_connections w UDP lg timeout conn req raw url s0)
    as (c & it & H & Hc & _ & _ & Hsend).
  exists c, it. auto.
Qed.

Lemma udp_sends_to_resolved_address_witness :
  let s' := (testUDP lab two_servers (lab_logger "udp") (10 * Second) init).2 in
  testUDP lab two_servers (lab_logger "udp") (10 * Second) init = (None, s') ∧
  every_iteration lab two_servers UDP (lab_logger "udp") (10 * Second) init s'
    (λ _ _ _ h url it, sends_to_resolved lab h url it).
Proof.
  assert (H : testUDP lab two_servers (lab_logger "udp") (10 * Second) init
              = (None, (testUDP lab two_servers (lab_logger "udp")
                          (10 * Second) init).2))
    by (vm_compute; reflexivity).
  split; [exact H|].
  exact (udp_sends_to_resolved_address lab two_servers (lab_logger "udp")
           (10 * Second) init _ H).
Defined.

(** ** Beyond the claims: the calls a run never makes *)

Lemma filter_closing_none (f : Call → bool) w h cs :
  (∀ c, f (CClose c) = false) → (∀ e, f (CUncheckedError e) = false) →
  List.filter f (closing w h cs) = [].
Proof.
  intros HC HU. revert h. induction cs as [|c cs IH]; intros h; simpl; [done|].
  by rewrite HC, HU.
Qed.

(** A kind of call that neither the setup nor any iteration makes, and
    that no log, report or close is, is made nowhere in a run. *)
Lemma filter_run (f : Call → bool) w cfg tr lg timeout s :
  (∀ c, f (CClose c) = false) → (∀ e, f (CUncheckedError e) = false) →
  (∀ l lv m a, f (CLog l lv m a) = false) →
  (∀ l rs, f (CLogSTUNResults l rs) = false) →
  f CBuild = false → (∀ m, f (CMarshalBinary m) = false) →
  (tr = UDP → f (CListenPacket "udp" "0.0.0.0:0") = false) →
  (∀ conn, List.filter f (open_calls w tr timeout (calls s) conn) = []) →
  (∀ conn req raw h url it,
     probe w tr lg timeout conn req raw h url it →
     List.filter f (it_calls it) = []) →
  List.filter f (new_calls s (test w cfg tr lg timeout s).2) = [].
Proof.
  intros HC HU HL HR HB HM HLs Hopen Hit.
  destruct (test_shape w cfg tr lg timeout s)
    as [(err & pre & cs & Hf & H)|(conn & req & raw & its & Hr & Hits & H)];
    rewrite H; cbn [snd].
  - rewrite new_calls_failed, List.filter_app, filter_closing_none, app_nil_r by done.
    inversion Hf; subst; unfold setup_calls; rewrite ?List.filter_app, ?Hopen;
      simpl; by rewrite ?HLs, ?HL, ?HB, ?HM.
  - rewrite new_calls_completed. unfold setup_calls.
    rewrite !List.filter_app, Hopen. simpl.
    rewrite HB, HM, HR, filter_closing_none, app_nil_r by done. simpl.
    eapply filter_join; [|exact Hits]. intros h url it. apply Hit.
Qed.

Lemma deadline_calls_nonpos w timeout conn h :
  timeout ≤ 0 → deadline_calls w timeout conn h = [].
Proof. intros. unfold deadline_calls. by rewrite bool_decide_eq_false_2 by lia. Qed.

Lemma no_deadline_nonpos w tr timeout h url it :
  timeout ≤ 0 →
  deadline_armed w tr timeout h url it → List.filter is_deadline (it_calls it) = [].
Proof.
  intros Ht. destruct tr; simpl; [done|].
  destruct (dialer_Dial w _); [|done]. intros (rest & -> & Hrest).
  unfold read_deadline_calls. by rewrite bool_decide_eq_false_2 by lia.
Qed.

(** X10: a timeout that is not positive arms nothing: with a zero or a
    negative timeout, a run of either transport, whether it fails or
    completes, makes no [SetDeadline] and no [SetReadDeadline] call, so
    its reads are never cut short. *)
Theorem no_deadline_without_positive_timeout w cfg tr lg timeout s :
  timeout ≤ 0 →
  List.filter is_deadline (new_calls s (test w cfg tr lg timeout s).2) = [].
Proof.
  intros Ht. apply filter_run; try done.
  - intros conn. destruct tr; simpl; by rewrite ?deadline_calls_nonpos.
  - intros conn req raw h url it HP.
    apply (no_deadline_nonpos w tr timeout h url it Ht).
    revert HP. apply (probe_property (deadline_armed w tr timeout)).
    intros. apply body_deadline_armed.
Qed.

Lemma no_deadline_without_positive_timeout_witness :
  -1 * Second ≤ 0 ∧
  List.filter is_deadline
    (new_calls init (test lab two_servers TCP (lab_logger "tcp") (-1 * Second) init).2)
  = [].
Proof.
  assert (H : -1 * Second ≤ 0) by (vm_compute; discriminate).
  split; [exact H|].
  exact (no_deadline_without_positive_timeout lab two_servers TCP
           (lab_logger "tcp") (-1 * Second) init H).
Defined.

(** ** Beyond the claims: the two runs of [main] *)

Lemma test_extends w cfg tr lg timeout s :
  calls (test w cfg tr lg timeout s).2
  = calls s ++ new_calls s (test w cfg tr lg timeout s).2.
Proof.
  destruct (test_shape w cfg tr lg timeout s)
    as [(err & pre & cs & Hf & H)|(conn & req & raw & its & Hr & Hits & H)];
    rewrite H; cbn [snd].
  - rewrite new_calls_failed. done.
  - rewrite new_calls_completed. unfold completed_state. cbn [calls].
    by rewrite <- !app_assoc.
Qed.

Lemma test_other_transport w cfg tr lg timeout s :
  List.filter (other_transport tr) (new_calls s (test w cfg tr lg timeout s).2) = [].
Proof.
  apply filter_run; try (by destruct tr).
  - intros conn. destruct tr; [|done]. simpl.
    unfold deadline_calls. by destruct (bool_decide _).
  - intros conn req raw h url it.
    apply (probe_property (λ _ _ it, List.filter (other_transport tr) (it_calls it) = [])).
    intros url0 s0.
    destruct (body_connections w tr lg timeout conn req raw url0 s0)
      as (c & it' & Hb & Hc & _ & Hoth & _).
    by exists c, it'.
Qed.

(** X11: [main] runs the two tests in turn, each with the sub-logger made
    for it and a timeout of ten seconds: the calls of the process are the
    calls of the UDP run followed by the calls of the TCP run; the first
    make no TCP call (dial, TCP resolve, [Write], [Read],
    [SetReadDeadline]), the second make no UDP call ([ListenPacket], UDP
    resolve, [WriteTo], [ReadFrom], [SetDeadline]); and when the UDP run
    returns an error the process panics with it and the TCP run makes no
    call at all. *)
Theorem main_runs_udp_then_tcp w cfg s :
  let udp := testUDP w cfg (Sublogger (NewLogger "nat-testing") "udp")
               (10 * Second) s in
  let r := main w cfg s in
  calls r.2 = calls s ++ new_calls s udp.2 ++ new_calls udp.2 r.2 ∧
  List.filter tcp_only (new_calls s udp.2) = [] ∧
  List.filter udp_only (new_calls udp.2 r.2) = [] ∧
  match udp.1 with
  | Some err => r = (Some err, udp.2) ∧ new_calls udp.2 r.2 = []
  | None =>
      r = testTCP w cfg (Sublogger (NewLogger "nat-testing") "tcp")
            (10 * Second) udp.2
  end.
Proof.
  cbv zeta. unfold main.
  pose proof (test_extends w cfg UDP (Sublogger (NewLogger "nat-testing") "udp")
                (10 * Second) s) as Hu.
  pose proof (test_other_transport w cfg UDP
                (Sublogger (NewLogger "nat-testing") "udp") (10 * Second) s) as Hu1.
  cbn [test other_transport] in Hu, Hu1.
  destruct (testUDP w cfg _ _ s) as [[err|] s1]; cbn [fst snd] in *.
  - assert (new_calls s1 s1 = []) as Hnil by (unfold new_calls; apply drop_all).
    rewrite Hnil, app_nil_r. by split_and!.
  - pose proof (test_extends w cfg TCP (Sublogger (NewLogger "nat-testing") "tcp")
                  (10 * Second) s1) as Ht.
    pose proof (test_other_transport w cfg TCP
                  (Sublogger (NewLogger "nat-testing") "tcp") (10 * Second) s1) as Ht1.
    cbn [test other_transport] in Ht, Ht1.
    destruct (testTCP w cfg _ _ s1) as [[err|] s2]; cbn [fst snd] in *.
    all: split_and!; try done.
    all: by rewrite Ht, Hu, <- app_assoc.
Qed.

(** ** Beyond the claims: no server to test *)

(** X12: with no server configured for its transport, a run that gets
    through its setup still completes: its loop makes no call, it reports
    an empty batch once, and it closes what its setup opened. *)
Theorem no_server_reports_nothing w cfg tr lg timeout s s' :
  urls cfg tr = [] →
  test w cfg tr lg timeout s = (None, s') →
  batch s' = [] ∧
  ∃ conn req,
    new_calls s s'
    = setup_calls w tr timeout (calls s) conn req
        ++ CLogSTUNResults lg []
        :: closing w (calls s ++ setup_calls w tr timeout (calls s) conn req
                        ++ [CLogSTUNResults lg []])
             (owned tr conn).
Proof.
  intros Hnone Hrun.
  destruct (test_completed w cfg tr lg timeout s s' Hrun)
    as (conn & req & raw & its & _ & Hits & ->).
  rewrite Hnone in Hits. inversion Hits; subst.
  split; [by rewrite batch_completed|].
  exists conn, req. by rewrite new_calls_completed.
Qed.

Lemma no_server_reports_nothing_witness :
  let s' := (test lab no_servers UDP (lab_logger "udp") (10 * Second) init).2 in
  urls no_servers UDP = [] ∧
  test lab no_servers UDP (lab_logger "udp") (10 * Second) init = (None, s') ∧
  batch s' = [] ∧
  ∃ conn req,
    new_calls init s'
    = setup_calls lab UDP (10 * Second) (calls init) conn req
        ++ CLogSTUNResults (lab_logger "udp") []
        :: closing lab (calls init
                          ++ setup_calls lab UDP (10 * Second) (calls init) conn req
                          ++ [CLogSTUNResults (lab_logger "udp") []])
             (owned UDP conn).
Proof.
  assert (H : test lab no_servers UDP (lab_logger "udp") (10 * Second) init
              = (None, (test lab no_servers UDP (lab_logger "udp")
                          (10 * Second) init).2))
    by (vm_compute; reflexivity).
  split; [reflexivity|]. split; [exact H|].
  exact (no_server_reports_nothing lab no_servers UDP (lab_logger "udp")
           (10 * Second) init _ eq_refl H).
Defined.
